(** * Request governance of the Yahoo Finance tool server

    A shallow embedding of [server.py]: the sliding-window limiter, the
    per-ticker throttle, the TTL cache, the retry executor and the nine tool
    handlers, followed by the properties proved about them.

    Modelling choices.
    - Readings of [time.monotonic()], durations and the configuration values
      parsed with [float(...)] are exact rationals ([Q]); the rounding of
      binary floating point is not modelled.
    - The three module-level containers are fields of [state].  The other
      fields of [state] are bookkeeping for the outside world: how many clock
      readings, upstream calls and random draws have happened, and the log of
      observable effects.
    - Python exceptions are values of [exn]; a computation either returns or
      raises ([outcome]).
    - A handler runs from start to end without interleaving with another
      handler.  *)

From Stdlib Require Import QArith Qabs Lqa ZArith Sorted Ascii String.
From stdpp Require Import gmap strings list fin_maps pretty.

Local Open Scope string_scope.

(** ** Rationals: boolean comparison *)

Definition Qlt_bool (x y : Q) : bool := negb (Qle_bool y x).

(** ** Configuration (module constants read from the process environment) *)

Record config := Config {
  _GLOBAL_WINDOW_SECONDS : Q;
  _GLOBAL_MAX_REQUESTS : Z;
  _PER_TICKER_MIN_INTERVAL_SECONDS : Q;
  _CACHE_TTL_SECONDS : Q;
  _MAX_RETRIES : Z;
  _BACKOFF_BASE_SECONDS : Q;
}.

(** The values used when no environment variable is set. *)
Definition default_config : config :=
  {| _GLOBAL_WINDOW_SECONDS := 60;
     _GLOBAL_MAX_REQUESTS := 30;
     _PER_TICKER_MIN_INTERVAL_SECONDS := 2;
     _CACHE_TTL_SECONDS := 60;
     _MAX_RETRIES := 2;
     _BACKOFF_BASE_SECONDS := 3 # 2 |}.

(** ** Cache keys: tuples of strings and integers *)

Inductive pyarg :=
| AStr (s : string)
| AInt (z : Z).

#[global] Instance pyarg_eq_dec : EqDecision pyarg.
Proof. solve_decision. Defined.

#[global] Instance pyarg_countable : Countable pyarg.
Proof.
  refine (inj_countable'
            (fun a => match a with AStr s => inl s | AInt z => inr z end)
            (fun x => match x with inl s => AStr s | inr z => AInt z end) _).
  intros []; reflexivity.
Defined.

(** ** Exceptions and outcomes *)

(** An exception is identified with [str(exc)], the only thing the server
    ever reads from it. *)
Inductive exn := Exception (message : string).

Definition str (e : exn) : string := let 'Exception m := e in m.

Inductive outcome (A : Type) :=
| Ret (a : A)
| Raise (e : exn).
Arguments Ret {A} a.
Arguments Raise {A} e.

(** What one call of a fetcher yields. *)
Inductive response (A : Type) :=
| Ok (a : A)
| Fail (e : exn).
Arguments Ok {A} a.
Arguments Fail {A} e.

(** ** Strings

    Strings are byte strings.  [lower] folds the ASCII letters only: the two
    needles searched for are ASCII, and no byte of a multi-byte UTF-8
    character lies in the range of the ASCII letters. *)

Definition lower_ascii (c : ascii) : ascii :=
  let n := nat_of_ascii c in
  if (65 <=? n)%nat && (n <=? 90)%nat then ascii_of_nat (n + 32) else c.

Fixpoint lower (s : string) : string :=
  match s with
  | EmptyString => EmptyString
  | String c r => String (lower_ascii c) (lower r)
  end.

(** [contains needle hay] is Python's [needle in hay]. *)
Fixpoint contains (needle hay : string) : bool :=
  String.prefix needle hay
  || match hay with
     | EmptyString => false
     | String _ r => contains needle r
     end.

(** [join sep xs] is Python's [sep.join(xs)]. *)
Fixpoint join (sep : string) (xs : list string) : string :=
  match xs with
  | [] => ""
  | [x] => x
  | x :: rest => x +:+ sep +:+ join sep rest
  end.

(** Rounding of a non-negative rational to the nearest integer, ties to
    even, as the [.1f] conversion does on the exact value it is given. *)
Definition round_half_even (q : Q) : Z :=
  let n := Qnum q in
  let d := Zpos (Qden q) in
  let f := (n / d)%Z in
  let r := (n mod d)%Z in
  match (2 * r ?= d)%Z with
  | Lt => f
  | Gt => (f + 1)%Z
  | Eq => if Z.even f then f else (f + 1)%Z
  end.

(** [format_1f q] is the text of [f"{q:.1f}"]. *)
Definition format_1f (q : Q) : string :=
  let t := round_half_even (Qabs q * 10) in
  (if Qlt_bool q 0 then "-" else "")
  +:+ pretty (t / 10)%Z +:+ "." +:+ pretty (t mod 10)%Z.

(** The sentence both limiters answer with. *)
Definition rate_limited_message (retry_after : Q) : string :=
  "Rate limited. Try after " +:+ format_1f retry_after +:+ "s.".

(** ** News items

    One element of [company.news], after the defaults of the chained
    [.get(..., "")] look-ups have been applied. *)
Record news_item := NewsItem {
  contentType : string;
  title : string;
  summary : string;
  description : string;
  url : string;
}.

(** ** The three enumerations *)

Inductive FinancialType :=
| income_stmt | quarterly_income_stmt | balance_sheet
| quarterly_balance_sheet | cashflow | quarterly_cashflow.

Inductive HolderType :=
| major_holders | institutional_holders | mutualfund_holders
| insider_transactions | insider_purchases | insider_roster_holders.

Inductive RecommendationType :=
| recommendations | upgrades_downgrades.

(** The value of a member; the classes mix in [str], so a member compares
    equal to a plain string exactly when that string is its value. *)
Definition FinancialType_value (t : FinancialType) : string :=
  match t with
  | income_stmt => "income_stmt"
  | quarterly_income_stmt => "quarterly_income_stmt"
  | balance_sheet => "balance_sheet"
  | quarterly_balance_sheet => "quarterly_balance_sheet"
  | cashflow => "cashflow"
  | quarterly_cashflow => "quarterly_cashflow"
  end.

Definition HolderType_value (t : HolderType) : string :=
  match t with
  | major_holders => "major_holders"
  | institutional_holders => "institutional_holders"
  | mutualfund_holders => "mutualfund_holders"
  | insider_transactions => "insider_transactions"
  | insider_purchases => "insider_purchases"
  | insider_roster_holders => "insider_roster_holders"
  end.

Definition RecommendationType_value (t : RecommendationType) : string :=
  match t with
  | recommendations => "recommendations"
  | upgrades_downgrades => "upgrades_downgrades"
  end.

Definition all_financial_types : list FinancialType :=
  [income_stmt; quarterly_income_stmt; balance_sheet;
   quarterly_balance_sheet; cashflow; quarterly_cashflow].

Definition all_holder_types : list HolderType :=
  [major_holders; institutional_holders; mutualfund_holders;
   insider_transactions; insider_purchases; insider_roster_holders].

Section Effects.

(** ** The data provider

    [data] stands for the provider's opaque objects (a pandas DataFrame, the
    [info] dictionary).  What the server does with such an object outside a
    fetcher is a total function to text. *)
Context {data : Type}.

(** One constructor per fetcher the handlers pass to the retry executor;
    the index is what the fetcher returns. *)
Inductive request : Type -> Type :=
| Isin (ticker : string) : request (option string)
| History (ticker period interval : string) : request data
| Info (ticker : string) : request data
| News (ticker : string) : request (list news_item)
| Actions (ticker : string) : request data
| Statement (ticker : string) (t : FinancialType) : request data
| Holders (ticker : string) (t : HolderType) : request string
| Options (ticker : string) : request (list string)
| OptionChain (ticker expiration_date : string) : request (data * data)
| Recommendations (ticker : string) : request string
| UpgradesDowngrades (ticker : string) : request data.

(** ** Observable effects *)
Inductive event :=
| EvFetch {A : Type} (r : request A)
| EvSleep (seconds : Q)
| EvPrint (text : string).

Definition is_fetch (e : event) : bool :=
  match e with EvFetch _ => true | _ => false end.

Definition sleep_of (e : event) : option Q :=
  match e with EvSleep d => Some d | _ => None end.

(** ** State *)
Record state := State {
  _global_request_timestamps : list Q;
  _last_ticker_request : gmap string Q;
  _cache : gmap (list pyarg) (Q * string);
  ticks : nat;          (* readings of the monotonic clock so far *)
  calls : nat;          (* fetcher invocations so far *)
  draws : nat;          (* random draws so far *)
  trace : list event;   (* effects so far, oldest first *)
}.

(** The state of a freshly started process. *)
Definition initial_state : state :=
  {| _global_request_timestamps := [];
     _last_ticker_request := ∅;
     _cache := ∅;
     ticks := 0; calls := 0; draws := 0; trace := [] |}.

(** ** The monad of handlers: state and exceptions *)
Definition M (A : Type) : Type := state -> outcome A * state.

Definition ret {A} (a : A) : M A := fun s => (Ret a, s).

Definition raise {A} (e : exn) : M A := fun s => (Raise e, s).

Definition bind {A B} (m : M A) (k : A -> M B) : M B :=
  fun s =>
    match m s with
    | (Ret a, s') => k a s'
    | (Raise e, s') => (Raise e, s')
    end.

(** [try: m except Exception as exc: ...] hands the outcome to the code
    that follows. *)
Definition guarded {A} (m : M A) : M (outcome A) :=
  fun s => let '(r, s') := m s in (Ret r, s').

Definition gets {A} (f : state -> A) : M A := fun s => (Ret (f s), s).

Definition modify (f : state -> state) : M unit := fun s => (Ret tt, f s).

(** *** Field updates *)
Definition set_timestamps (ts : list Q) (s : state) : state :=
  {| _global_request_timestamps := ts;
     _last_ticker_request := _last_ticker_request s;
     _cache := _cache s;
     ticks := ticks s; calls := calls s; draws := draws s;
     trace := trace s |}.

Definition set_last (m : gmap string Q) (s : state) : state :=
  {| _global_request_timestamps := _global_request_timestamps s;
     _last_ticker_request := m;
     _cache := _cache s;
     ticks := ticks s; calls := calls s; draws := draws s;
     trace := trace s |}.

Definition set_cache (c : gmap (list pyarg) (Q * string)) (s : state) : state :=
  {| _global_request_timestamps := _global_request_timestamps s;
     _last_ticker_request := _last_ticker_request s;
     _cache := c;
     ticks := ticks s; calls := calls s; draws := draws s;
     trace := trace s |}.

Definition tick (s : state) : state :=
  {| _global_request_timestamps := _global_request_timestamps s;
     _last_ticker_request := _last_ticker_request s;
     _cache := _cache s;
     ticks := S (ticks s); calls := calls s; draws := draws s;
     trace := trace s |}.

Definition log (e : event) (s : state) : state :=
  {| _global_request_timestamps := _global_request_timestamps s;
     _last_ticker_request := _last_ticker_request s;
     _cache := _cache s;
     ticks := ticks s; calls := calls s; draws := draws s;
     trace := trace s ++ [e] |}.

Definition count_call (s : state) : state :=
  {| _global_request_timestamps := _global_request_timestamps s;
     _last_ticker_request := _last_ticker_request s;
     _cache := _cache s;
     ticks := ticks s; calls := S (calls s); draws := draws s;
     trace := trace s |}.

Definition count_draw (s : state) : state :=
  {| _global_request_timestamps := _global_request_timestamps s;
     _last_ticker_request := _last_ticker_request s;
     _cache := _cache s;
     ticks := ticks s; calls := calls s; draws := S (draws s);
     trace := trace s |}.

End Effects.

Arguments request : clear implicits.
Arguments event : clear implicits.
Arguments state : clear implicits.
Arguments M : clear implicits.

Notation "x <- m ;; k" := (bind m (fun x => k))
  (at level 100, m at level 99, right associativity).
Notation "m ;;; k" := (bind m (fun _ => k))
  (at level 100, right associativity).

(** ** The outside world

    The configuration, the clock, the random generator and the provider
    (each answering its n-th query), and what the handlers do with provider
    objects outside a fetcher: each of the latter stands for a chain of
    pandas or json calls. *)
Record world (data : Type) := World {
  cfg : config;
  (** [time.monotonic()] *)
  clock : nat -> Q;
  (** [random.random()] *)
  random : nat -> Q;
  (** the fetcher called as the n-th upstream call *)
  upstream : forall A : Type, nat -> request data A -> response A;
  (** [df.reset_index(names="Date").to_json(orient="records", date_format="iso")] *)
  to_json_dated : data -> string;
  (** [json.dumps(info)] *)
  json_dumps : data -> string;
  (** [json.dumps(options)] *)
  json_dumps_strs : list string -> string;
  (** the loop over the columns of a statement, then [json.dumps(result)] *)
  statement_json : data -> string;
  (** [df.to_json(orient="records", date_format="iso")] *)
  to_json_iso : data -> string;
  (** the cutoff by [months_back], the sort by grade date, the
      [drop_duplicates] by firm and [to_json]; these run inside the [try]
      block of [get_recommendations], so a failure of theirs is caught *)
  latest_by_firm_json : data -> Z -> response string;
  (** how an f-string renders a member of a [str]-mixin enumeration, given
      the class name and the member's value (the answer differs between
      Python versions) *)
  enum_format : string -> string -> string;
}.
Arguments cfg {data} w.
Arguments clock {data} w n.
Arguments random {data} w n.
Arguments upstream {data} w A n r.
Arguments to_json_dated {data} w d.
Arguments json_dumps {data} w d.
Arguments json_dumps_strs {data} w xs.
Arguments statement_json {data} w d.
Arguments to_json_iso {data} w d.
Arguments latest_by_firm_json {data} w d months_back.
Arguments enum_format {data} w cls member.

Section Server.

Context {data : Type}.
Variable w : world data.

Local Abbreviation M := (M data).
Local Abbreviation request := (request data).

(** *** Primitive effects *)

(** [time.monotonic()] *)
Definition monotonic : M Q :=
  fun s => (Ret (clock w (ticks s)), tick s).

(** [random.uniform(a, b)], which is [a + (b - a) * random.random()]. *)
Definition uniform (a b : Q) : M Q :=
  fun s => (Ret (a + (b - a) * random w (draws s))%Q, count_draw s).

(** [await asyncio.sleep(seconds)] *)
Definition sleep (seconds : Q) : M unit := modify (log (EvSleep seconds)).

(** [print(text)] *)
Definition print (text : string) : M unit := modify (log (EvPrint text)).

(** Calling a fetcher: the provider answers, or raises. *)
Definition fetch {A} (r : request A) : M A :=
  fun s =>
    let s' := count_call (log (EvFetch r) s) in
    match upstream w A (calls s) r with
    | Ok a => (Ret a, s')
    | Fail e => (Raise e, s')
    end.

(** ** Sliding-window limiter and per-ticker throttle *)

(** The loop of [_prune_global_timestamps]: pop the head while it is older
    than the cutoff. *)
Fixpoint prune_loop (cutoff : Q) (ts : list Q) : list Q :=
  match ts with
  | t :: rest => if Qlt_bool t cutoff then prune_loop cutoff rest else ts
  | [] => []
  end.

Definition _prune_global_timestamps (now : Q) : M unit :=
  let cutoff := (now - _GLOBAL_WINDOW_SECONDS (cfg w))%Q in
  modify (fun s =>
    set_timestamps (prune_loop cutoff (_global_request_timestamps s)) s).

(** [ts[0]], which raises IndexError on the empty list. *)
Definition index0 (ts : list Q) : M Q :=
  match ts with
  | t :: _ => ret t
  | [] => raise (Exception "list index out of range")
  end.

Definition _rate_limit_check (ticker : string) : M (bool * option string) :=
  now <- monotonic ;;
  _prune_global_timestamps now ;;;
  ts <- gets _global_request_timestamps ;;
  if (Z.of_nat (length ts) >=? _GLOBAL_MAX_REQUESTS (cfg w))%Z then
    oldest <- index0 ts ;;
    let retry_after := (_GLOBAL_WINDOW_SECONDS (cfg w) - (now - oldest))%Q in
    ret (true, Some (rate_limited_message retry_after))
  else
    last <- gets (fun s => _last_ticker_request s !! ticker) ;;
    let record : M (bool * option string) :=
      modify (fun s =>
        set_timestamps (_global_request_timestamps s ++ [now]) s) ;;;
      modify (fun s =>
        set_last (<[ticker := now]> (_last_ticker_request s)) s) ;;;
      ret (false, None) in
    match last with
    | Some last =>
        let elapsed := (now - last)%Q in
        if Qlt_bool elapsed (_PER_TICKER_MIN_INTERVAL_SECONDS (cfg w)) then
          let retry_after :=
            (_PER_TICKER_MIN_INTERVAL_SECONDS (cfg w) - elapsed)%Q in
          ret (true, Some (rate_limited_message retry_after))
        else record
    | None => record
    end.

(** ** TTL cache *)

Definition _cache_get (cache_key : list pyarg) : M (option string) :=
  now <- monotonic ;;
  cached <- gets (fun s => _cache s !! cache_key) ;;
  match cached with
  | None => ret None
  | Some (expires_at, value) =>
      if Qle_bool expires_at now then
        modify (fun s => set_cache (delete cache_key (_cache s)) s) ;;;
        ret None
      else ret (Some value)
  end.

Definition _cache_set (cache_key : list pyarg) (value : string) : M unit :=
  now <- monotonic ;;
  let expires_at := (now + _CACHE_TTL_SECONDS (cfg w))%Q in
  modify (fun s =>
    set_cache (<[cache_key := (expires_at, value)]> (_cache s)) s).

(** ** Retry executor *)

Definition _is_rate_limited_error (exc : exn) : bool :=
  let message := lower (str exc) in
  contains "too many requests" message || contains "rate limited" message.

(** [raise last_error] after the loop; [last_error] is still [None] when
    the loop body never ran, and raising [None] is a TypeError. *)
Definition raise_last {A} (last_error : option exn) : M A :=
  match last_error with
  | Some e => raise e
  | None => raise (Exception "exceptions must derive from BaseException")
  end.

(** The [for attempt in range(_MAX_RETRIES + 1)] loop, with [remaining]
    iterations to go and [attempt_no] the value of [attempt]. *)
Fixpoint retry_loop {A} (fetcher : M A) (remaining : nat) (attempt_no : Z)
    (last_error : option exn) : M A :=
  match remaining with
  | O => raise_last last_error
  | S remaining' =>
      r <- guarded fetcher ;;
      match r with
      | Ret v => ret v
      | Raise exc =>
          if negb (_is_rate_limited_error exc)
             || (attempt_no >=? _MAX_RETRIES (cfg w))%Z
          then raise exc
          else
            let backoff :=
              (_BACKOFF_BASE_SECONDS (cfg w) * inject_Z (2 ^ attempt_no))%Q in
            jitter <- uniform 0 ((3 # 10) * backoff) ;;
            let backoff := (backoff + jitter)%Q in
            sleep backoff ;;;
            retry_loop fetcher remaining' (attempt_no + 1) (Some exc)
      end
  end.

Definition _execute_with_retry {A} (fetcher : M A) : M A :=
  retry_loop fetcher (Z.to_nat (_MAX_RETRIES (cfg w) + 1)) 0 None.

Definition lift_response {A} (r : response A) : M A :=
  match r with
  | Ok a => ret a
  | Fail e => raise e
  end.

(** [message or default] *)
Definition or_default (message : option string) (default : string) : string :=
  match message with
  | Some "" => default
  | Some m => m
  | None => default
  end.

Definition newline : string := String (ascii_of_nat 10) EmptyString.

Definition not_found_text (ticker : string) : string :=
  "Company ticker " +:+ ticker +:+ " not found.".

Definition error_text (doing ticker : string) (e : exn) : string :=
  "Error: getting " +:+ doing +:+ " for " +:+ ticker +:+ ": " +:+ str e.

(** The [if]/[elif] chains comparing the argument with each member. *)
Definition financial_type_of (financial_type : string) : option FinancialType :=
  if String.eqb financial_type (FinancialType_value income_stmt)
  then Some income_stmt
  else if String.eqb financial_type (FinancialType_value quarterly_income_stmt)
  then Some quarterly_income_stmt
  else if String.eqb financial_type (FinancialType_value balance_sheet)
  then Some balance_sheet
  else if String.eqb financial_type (FinancialType_value quarterly_balance_sheet)
  then Some quarterly_balance_sheet
  else if String.eqb financial_type (FinancialType_value cashflow)
  then Some cashflow
  else if String.eqb financial_type (FinancialType_value quarterly_cashflow)
  then Some quarterly_cashflow
  else None.

Definition holder_type_of (holder_type : string) : option HolderType :=
  if String.eqb holder_type (HolderType_value major_holders)
  then Some major_holders
  else if String.eqb holder_type (HolderType_value institutional_holders)
  then Some institutional_holders
  else if String.eqb holder_type (HolderType_value mutualfund_holders)
  then Some mutualfund_holders
  else if String.eqb holder_type (HolderType_value insider_transactions)
  then Some insider_transactions
  else if String.eqb holder_type (HolderType_value insider_purchases)
  then Some insider_purchases
  else if String.eqb holder_type (HolderType_value insider_roster_holders)
  then Some insider_roster_holders
  else None.

Definition invalid_financial_type_text (financial_type : string) : string :=
  "Error: invalid financial type " +:+ financial_type
  +:+ ". Please use one of the following: "
  +:+ join ", " (map (fun t => enum_format w "FinancialType" (FinancialType_value t))
                     all_financial_types)
  +:+ ".".

Definition invalid_holder_type_text (holder_type : string) : string :=
  "Error: invalid holder type " +:+ holder_type
  +:+ ". Please use one of the following: "
  +:+ join ", " (map (fun t => enum_format w "HolderType" (HolderType_value t))
                     all_holder_types)
  +:+ ".".

Definition rate_limited_default : string := "Rate limited. Try after a while.".

(** ** Tool handlers

    Each handler follows its source statement by statement.  Building
    [yf.Ticker(ticker)] makes no upstream call and is taken not to raise, so
    it leaves no trace here (in [get_stock_actions] its [try] block
    disappears with it); every [lambda] handed to [_execute_with_retry] is a
    [fetch] of the matching [request]. *)

Definition get_historical_stock_prices (ticker period interval : string)
    : M string :=
  let cache_key :=
    [AStr "get_historical_stock_prices"; AStr ticker; AStr period;
     AStr interval] in
  cached <- _cache_get cache_key ;;
  match cached with
  | Some cached => ret cached
  | None =>
    rl <- _rate_limit_check ticker ;;
    let '(rate_limited, message) := rl in
    if rate_limited then ret (or_default message rate_limited_default)
    else
      isin <- guarded (_execute_with_retry (fetch (Isin ticker))) ;;
      match isin with
      | Raise e =>
          print (error_text "historical stock prices" ticker e) ;;;
          ret (error_text "historical stock prices" ticker e)
      | Ret None =>
          print (not_found_text ticker) ;;; ret (not_found_text ticker)
      | Ret (Some _) =>
          hist_data <- guarded (_execute_with_retry
                                  (fetch (History ticker period interval))) ;;
          match hist_data with
          | Raise e =>
              print (error_text "historical stock prices" ticker e) ;;;
              ret (error_text "historical stock prices" ticker e)
          | Ret hist_data =>
              let hist_data := to_json_dated w hist_data in
              _cache_set cache_key hist_data ;;;
              ret hist_data
          end
      end
  end.

Definition get_stock_info (ticker : string) : M string :=
  let cache_key := [AStr "get_stock_info"; AStr ticker] in
  cached <- _cache_get cache_key ;;
  match cached with
  | Some cached => ret cached
  | None =>
    rl <- _rate_limit_check ticker ;;
    let '(rate_limited, message) := rl in
    if rate_limited then ret (or_default message rate_limited_default)
    else
      isin <- guarded (_execute_with_retry (fetch (Isin ticker))) ;;
      match isin with
      | Raise e =>
          print (error_text "stock information" ticker e) ;;;
          ret (error_text "stock information" ticker e)
      | Ret None =>
          print (not_found_text ticker) ;;; ret (not_found_text ticker)
      | Ret (Some _) =>
          info <- guarded (_execute_with_retry (fetch (Info ticker))) ;;
          match info with
          | Raise e =>
              print (error_text "stock information" ticker e) ;;;
              ret (error_text "stock information" ticker e)
          | Ret info =>
              let result := json_dumps w info in
              _cache_set cache_key result ;;;
              ret result
          end
      end
  end.

Definition news_text (n : news_item) : string :=
  "Title: " +:+ title n +:+ newline
  +:+ "Summary: " +:+ summary n +:+ newline
  +:+ "Description: " +:+ description n +:+ newline
  +:+ "URL: " +:+ url n.

Definition no_news_text (ticker : string) : string :=
  "No news found for company that searched with " +:+ ticker +:+ " ticker.".

Definition get_yahoo_finance_news (ticker : string) : M string :=
  let cache_key := [AStr "get_yahoo_finance_news"; AStr ticker] in
  cached <- _cache_get cache_key ;;
  match cached with
  | Some cached => ret cached
  | None =>
    rl <- _rate_limit_check ticker ;;
    let '(rate_limited, message) := rl in
    if rate_limited then ret (or_default message rate_limited_default)
    else
      isin <- guarded (_execute_with_retry (fetch (Isin ticker))) ;;
      match isin with
      | Raise e =>
          print (error_text "news" ticker e) ;;;
          ret (error_text "news" ticker e)
      | Ret None =>
          print (not_found_text ticker) ;;; ret (not_found_text ticker)
      | Ret (Some _) =>
          news <- guarded (_execute_with_retry (fetch (News ticker))) ;;
          match news with
          | Raise e =>
              print (error_text "news" ticker e) ;;;
              ret (error_text "news" ticker e)
          | Ret news =>
              let news_list :=
                map news_text
                    (filter (fun n => contentType n = "STORY") news) in
              match news_list with
              | [] => print (no_news_text ticker) ;;; ret (no_news_text ticker)
              | _ =>
                  let result := join (newline +:+ newline) news_list in
                  _cache_set cache_key result ;;;
                  ret result
              end
          end
      end
  end.

Definition get_stock_actions (ticker : string) : M string :=
  let cache_key := [AStr "get_stock_actions"; AStr ticker] in
  cached <- _cache_get cache_key ;;
  match cached with
  | Some cached => ret cached
  | None =>
    rl <- _rate_limit_check ticker ;;
    let '(rate_limited, message) := rl in
    if rate_limited then ret (or_default message rate_limited_default)
    else
      actions_df <- guarded (_execute_with_retry (fetch (Actions ticker))) ;;
      match actions_df with
      | Raise e =>
          print (error_text "stock actions" ticker e) ;;;
          ret (error_text "stock actions" ticker e)
      | Ret actions_df =>
          let result := to_json_dated w actions_df in
          _cache_set cache_key result ;;;
          ret result
      end
  end.

Definition get_financial_statement (ticker financial_type : string)
    : M string :=
  let cache_key :=
    [AStr "get_financial_statement"; AStr ticker; AStr financial_type] in
  cached <- _cache_get cache_key ;;
  match cached with
  | Some cached => ret cached
  | None =>
    rl <- _rate_limit_check ticker ;;
    let '(rate_limited, message) := rl in
    if rate_limited then ret (or_default message rate_limited_default)
    else
      isin <- guarded (_execute_with_retry (fetch (Isin ticker))) ;;
      match isin with
      | Raise e =>
          print (error_text "financial statement" ticker e) ;;;
          ret (error_text "financial statement" ticker e)
      | Ret None =>
          print (not_found_text ticker) ;;; ret (not_found_text ticker)
      | Ret (Some _) =>
          match financial_type_of financial_type with
          | None => ret (invalid_financial_type_text financial_type)
          | Some t =>
              let fetcher := fetch (Statement ticker t) in
              financial_statement <- guarded (_execute_with_retry fetcher) ;;
              match financial_statement with
              | Raise e =>
                  print (error_text "financial statement" ticker e) ;;;
                  ret (error_text "financial statement" ticker e)
              | Ret financial_statement =>
                  let result_json := statement_json w financial_statement in
                  _cache_set cache_key result_json ;;;
                  ret result_json
              end
          end
      end
  end.

Definition get_holder_info (ticker holder_type : string) : M string :=
  let cache_key := [AStr "get_holder_info"; AStr ticker; AStr holder_type] in
  cached <- _cache_get cache_key ;;
  match cached with
  | Some cached => ret cached
  | None =>
    rl <- _rate_limit_check ticker ;;
    let '(rate_limited, message) := rl in
    if rate_limited then ret (or_default message rate_limited_default)
    else
      isin <- guarded (_execute_with_retry (fetch (Isin ticker))) ;;
      match isin with
      | Raise e =>
          print (error_text "holder info" ticker e) ;;;
          ret (error_text "holder info" ticker e)
      | Ret None =>
          print (not_found_text ticker) ;;; ret (not_found_text ticker)
      | Ret (Some _) =>
          match holder_type_of holder_type with
          | None => ret (invalid_holder_type_text holder_type)
          | Some t =>
              result <- guarded (_execute_with_retry
                                   (fetch (Holders ticker t))) ;;
              match result with
              | Raise e =>
                  print (error_text "holder info" ticker e) ;;;
                  ret (error_text "holder info" ticker e)
              | Ret result =>
                  _cache_set cache_key result ;;;
                  ret result
              end
          end
      end
  end.

Definition get_option_expiration_dates (ticker : string) : M string :=
  let cache_key := [AStr "get_option_expiration_dates"; AStr ticker] in
  cached <- _cache_get cache_key ;;
  match cached with
  | Some cached => ret cached
  | None =>
    rl <- _rate_limit_check ticker ;;
    let '(rate_limited, message) := rl in
    if rate_limited then ret (or_default message rate_limited_default)
    else
      isin <- guarded (_execute_with_retry (fetch (Isin ticker))) ;;
      match isin with
      | Raise e =>
          print (error_text "option expiration dates" ticker e) ;;;
          ret (error_text "option expiration dates" ticker e)
      | Ret None =>
          print (not_found_text ticker) ;;; ret (not_found_text ticker)
      | Ret (Some _) =>
          options <- guarded (_execute_with_retry (fetch (Options ticker))) ;;
          match options with
          | Raise e =>
              print (error_text "option expiration dates" ticker e) ;;;
              ret (error_text "option expiration dates" ticker e)
          | Ret options =>
              let result := json_dumps_strs w options in
              _cache_set cache_key result ;;;
              ret result
          end
      end
  end.

Definition no_options_text (expiration_date : string) : string :=
  "Error: No options available for the date " +:+ expiration_date
  +:+ ". You can use `get_option_expiration_dates` to get the available expiration dates.".

Definition invalid_option_type_text : string :=
  "Error: Invalid option type. Please use 'calls' or 'puts'.".

Definition get_option_chain (ticker expiration_date option_type : string)
    : M string :=
  let cache_key :=
    [AStr "get_option_chain"; AStr ticker; AStr expiration_date;
     AStr option_type] in
  cached <- _cache_get cache_key ;;
  match cached with
  | Some cached => ret cached
  | None =>
    rl <- _rate_limit_check ticker ;;
    let '(rate_limited, message) := rl in
    if rate_limited then ret (or_default message rate_limited_default)
    else
      isin <- guarded (_execute_with_retry (fetch (Isin ticker))) ;;
      match isin with
      | Raise e =>
          print (error_text "option chain" ticker e) ;;;
          ret (error_text "option chain" ticker e)
      | Ret None =>
          print (not_found_text ticker) ;;; ret (not_found_text ticker)
      | Ret (Some _) =>
          options <- guarded (_execute_with_retry (fetch (Options ticker))) ;;
          match options with
          | Raise e =>
              print (error_text "option chain" ticker e) ;;;
              ret (error_text "option chain" ticker e)
          | Ret options =>
              if negb (existsb (String.eqb expiration_date) options)
              then ret (no_options_text expiration_date)
              else if negb (existsb (String.eqb option_type) ["calls"; "puts"])
              then ret invalid_option_type_text
              else
                option_chain <-
                  guarded (_execute_with_retry
                             (fetch (OptionChain ticker expiration_date))) ;;
                match option_chain with
                | Raise e =>
                    print (error_text "option chain" ticker e) ;;;
                    ret (error_text "option chain" ticker e)
                | Ret (calls_df, puts_df) =>
                    if String.eqb option_type "calls" then
                      let result := to_json_iso w calls_df in
                      _cache_set cache_key result ;;;
                      ret result
                    else if String.eqb option_type "puts" then
                      let result := to_json_iso w puts_df in
                      _cache_set cache_key result ;;;
                      ret result
                    else
                      ret ("Error: invalid option type " +:+ option_type
                           +:+ ". Please use one of the following: calls, puts.")
                end
          end
      end
  end.

(** The function has no [return] after its last [try] statement: when
    neither branch of the [if]/[elif] is taken it returns [None]. *)
Definition get_recommendations (ticker recommendation_type : string)
    (months_back : Z) : M (option string) :=
  let cache_key :=
    [AStr "get_recommendations"; AStr ticker; AStr recommendation_type;
     AInt months_back] in
  cached <- _cache_get cache_key ;;
  match cached with
  | Some cached => ret (Some cached)
  | None =>
    rl <- _rate_limit_check ticker ;;
    let '(rate_limited, message) := rl in
    if rate_limited then ret (Some (or_default message rate_limited_default))
    else
      isin <- guarded (_execute_with_retry (fetch (Isin ticker))) ;;
      match isin with
      | Raise e =>
          print (error_text "recommendations" ticker e) ;;;
          ret (Some (error_text "recommendations" ticker e))
      | Ret None =>
          print (not_found_text ticker) ;;; ret (Some (not_found_text ticker))
      | Ret (Some _) =>
          r <- guarded (
            if String.eqb recommendation_type
                 (RecommendationType_value recommendations) then
              result <- _execute_with_retry (fetch (Recommendations ticker)) ;;
              _cache_set cache_key result ;;;
              ret (Some result)
            else if String.eqb recommendation_type
                      (RecommendationType_value upgrades_downgrades) then
              upgrades <- _execute_with_retry
                            (fetch (UpgradesDowngrades ticker)) ;;
              result <- lift_response
                          (latest_by_firm_json w upgrades months_back) ;;
              _cache_set cache_key result ;;;
              ret (Some result)
            else ret None) ;;
          match r with
          | Ret v => ret v
          | Raise e =>
              print (error_text "recommendations" ticker e) ;;;
              ret (Some (error_text "recommendations" ticker e))
          end
      end
  end.

(** ** The tool surface *)

Inductive tool_call :=
| GetHistoricalStockPrices (ticker period interval : string)
| GetStockInfo (ticker : string)
| GetYahooFinanceNews (ticker : string)
| GetStockActions (ticker : string)
| GetFinancialStatement (ticker financial_type : string)
| GetHolderInfo (ticker holder_type : string)
| GetOptionExpirationDates (ticker : string)
| GetOptionChain (ticker expiration_date option_type : string)
| GetRecommendations (ticker recommendation_type : string) (months_back : Z).

(** What a handler hands back to the transport: a string, or [None]. *)
Definition some {A} (m : M A) : M (option A) := a <- m ;; ret (Some a).

Definition handle (c : tool_call) : M (option string) :=
  match c with
  | GetHistoricalStockPrices t p i => some (get_historical_stock_prices t p i)
  | GetStockInfo t => some (get_stock_info t)
  | GetYahooFinanceNews t => some (get_yahoo_finance_news t)
  | GetStockActions t => some (get_stock_actions t)
  | GetFinancialStatement t f => some (get_financial_statement t f)
  | GetHolderInfo t h => some (get_holder_info t h)
  | GetOptionExpirationDates t => some (get_option_expiration_dates t)
  | GetOptionChain t d o => some (get_option_chain t d o)
  | GetRecommendations t r m => get_recommendations t r m
  end.

(** The operation identity: the tuple each handler builds as [cache_key]. *)
Definition cache_key_of (c : tool_call) : list pyarg :=
  match c with
  | GetHistoricalStockPrices t p i =>
      [AStr "get_historical_stock_prices"; AStr t; AStr p; AStr i]
  | GetStockInfo t => [AStr "get_stock_info"; AStr t]
  | GetYahooFinanceNews t => [AStr "get_yahoo_finance_news"; AStr t]
  | GetStockActions t => [AStr "get_stock_actions"; AStr t]
  | GetFinancialStatement t f => [AStr "get_financial_statement"; AStr t; AStr f]
  | GetHolderInfo t h => [AStr "get_holder_info"; AStr t; AStr h]
  | GetOptionExpirationDates t => [AStr "get_option_expiration_dates"; AStr t]
  | GetOptionChain t d o => [AStr "get_option_chain"; AStr t; AStr d; AStr o]
  | GetRecommendations t r m =>
      [AStr "get_recommendations"; AStr t; AStr r; AInt m]
  end.

Definition ticker_of (c : tool_call) : string :=
  match c with
  | GetHistoricalStockPrices t _ _ | GetStockInfo t | GetYahooFinanceNews t
  | GetStockActions t | GetFinancialStatement t _ | GetHolderInfo t _
  | GetOptionExpirationDates t | GetOptionChain t _ _
  | GetRecommendations t _ _ => t
  end.

End Server.

Arguments initial_state : clear implicits.

(** ** Sample worlds

    Concrete data providers, clocks and configurations on which the
    handlers can be run. *)

(** A provider that knows every ticker and answers every fetcher. *)
Definition steady_upstream : forall A : Type, nat -> request string A -> response A :=
  fun A _ r =>
    match r in request _ T return response T with
    | Isin _ => Ok (Some "US0378331005")
    | History _ _ _ => Ok "history"
    | Info _ => Ok "info"
    | News _ => Ok []
    | Actions _ => Ok "actions"
    | Statement _ _ => Ok "statement"
    | Holders _ _ => Ok "[]"
    | Options _ => Ok ["2030-01-18"]
    | OptionChain _ _ => Ok ("calls", "puts")
    | Recommendations _ => Ok "[]"
    | UpgradesDowngrades _ => Ok "upgrades"
    end.

(** A provider that throttles its first [n] calls. *)
Definition flaky_upstream (n : nat)
    : forall A : Type, nat -> request string A -> response A :=
  fun A i r =>
    if (i <? n)%nat then Fail (Exception "429 Too Many Requests")
    else steady_upstream A i r.

(** A provider that is down. *)
Definition broken_upstream : forall A : Type, nat -> request string A -> response A :=
  fun A _ _ => Fail (Exception "connection reset").

(** A clock read once per second, starting at [t0]. *)
Definition second_clock (t0 : Z) (n : nat) : Q := inject_Z (t0 + Z.of_nat n).

Definition sample_world (c : config) (clk : nat -> Q)
    (up : forall A : Type, nat -> request string A -> response A)
    : world string :=
  {| cfg := c;
     clock := clk;
     random := fun _ => 1 # 2;
     upstream := up;
     to_json_dated := fun d => d;
     json_dumps := fun d => d;
     json_dumps_strs := join ", ";
     statement_json := fun d => d;
     to_json_iso := fun d => d;
     latest_by_firm_json := fun d _ => Ok d;
     enum_format := fun _ member => member |}.

Definition default_world : world string :=
  sample_world default_config (second_clock 0) steady_upstream.

(** A window of 60 seconds that admits two requests. *)
Definition tight_config : config :=
  {| _GLOBAL_WINDOW_SECONDS := 60;
     _GLOBAL_MAX_REQUESTS := 2;
     _PER_TICKER_MIN_INTERVAL_SECONDS := 2;
     _CACHE_TTL_SECONDS := 60;
     _MAX_RETRIES := 2;
     _BACKOFF_BASE_SECONDS := 3 # 2 |}.

Definition tight_world : world string :=
  sample_world tight_config (second_clock 0) steady_upstream.

(** The same provider behind a clock read every tenth of a second. *)
Definition brisk_world : world string :=
  sample_world default_config (fun n => Z.of_nat n # 10) steady_upstream.

(** The same provider behind a clock read every hundred seconds. *)
Definition slow_world : world string :=
  sample_world default_config (fun n => inject_Z (100 * Z.of_nat n))
    steady_upstream.

(** A provider that throttles its first two calls. *)
Definition flaky_world : world string :=
  sample_world default_config (second_clock 0) (flaky_upstream 2).

(** A provider that is down, behind the default configuration. *)
Definition broken_world : world string :=
  sample_world default_config (second_clock 0) broken_upstream.

(** A provider that does not know the ticker: its ISIN look-up returns
    [None]. *)
Definition unlisted_upstream
    : forall A : Type, nat -> request string A -> response A :=
  fun A i r =>
    match r in request _ T return response T with
    | Isin _ => Ok None
    | r' => steady_upstream _ i r'
    end.

Definition unlisted_world : world string :=
  sample_world default_config (second_clock 0) unlisted_upstream.

(** A provider with one story and one video in the news. *)
Definition newsy_upstream
    : forall A : Type, nat -> request string A -> response A :=
  fun A i r =>
    match r in request _ T return response T with
    | News _ =>
        Ok [ {| contentType := "STORY"; title := "T"; summary := "S";
                description := "D"; url := "U" |};
             {| contentType := "VIDEO"; title := "V"; summary := "";
                description := ""; url := "" |} ]
    | r' => steady_upstream _ i r'
    end.

Definition newsy_world : world string :=
  sample_world default_config (second_clock 0) newsy_upstream.

(** A window that admits no request at all. *)
Definition starved_world : world string :=
  sample_world
    {| _GLOBAL_WINDOW_SECONDS := 60;
       _GLOBAL_MAX_REQUESTS := 0;
       _PER_TICKER_MIN_INTERVAL_SECONDS := 2;
       _CACHE_TTL_SECONDS := 60;
       _MAX_RETRIES := 2;
       _BACKOFF_BASE_SECONDS := 3 # 2 |}
    (second_clock 0) steady_upstream.

(** A negative number of retries. *)
Definition impatient_world : world string :=
  sample_world
    {| _GLOBAL_WINDOW_SECONDS := 60;
       _GLOBAL_MAX_REQUESTS := 30;
       _PER_TICKER_MIN_INTERVAL_SECONDS := 2;
       _CACHE_TTL_SECONDS := 60;
       _MAX_RETRIES := -1;
       _BACKOFF_BASE_SECONDS := 3 # 2 |}
    (second_clock 0) steady_upstream.

(** A time-to-live of zero seconds. *)
Definition forgetful_world : world string :=
  sample_world
    {| _GLOBAL_WINDOW_SECONDS := 60;
       _GLOBAL_MAX_REQUESTS := 30;
       _PER_TICKER_MIN_INTERVAL_SECONDS := 2;
       _CACHE_TTL_SECONDS := 0;
       _MAX_RETRIES := 2;
       _BACKOFF_BASE_SECONDS := 3 # 2 |}
    (second_clock 0) steady_upstream.

(** The state after the given calls, run one after the other from a fresh
    process; the replies are dropped. *)
Definition state_after {data : Type} (w : world data) (cs : list tool_call)
    : state data :=
  fold_left (fun s c => snd (handle w c s)) cs (initial_state data).

(** ** Vocabulary of the statements *)

Section Vocabulary.

Context {data : Type}.
Variable w : world data.

(** The global list is in the order in which its entries were recorded, and
    none of them lies in the future. *)
Definition timestamps_in_order (s : state data) : Prop :=
  Sorted Qle (_global_request_timestamps s)
  /\ Forall (fun t => (t <= clock w (ticks s))%Q) (_global_request_timestamps s).

(** The sleep after the failure of attempt [i], for the random fraction [u]. *)
Definition backoff_delay (i : nat) (u : Q) : Q :=
  let backoff :=
    (_BACKOFF_BASE_SECONDS (cfg w) * inject_Z (2 ^ Z.of_nat i))%Q in
  (backoff + (0 + ((3 # 10) * backoff - 0) * u))%Q.

(** The effects of [k] attempts at [r], the first of them being attempt
    [i], with a sleep between consecutive attempts; [d] random draws have
    been made before. *)
Fixpoint retry_events {A} (r : request data A) (d i k : nat)
    : list (event data) :=
  match k with
  | O => []
  | S k' =>
      match k' with
      | O => [EvFetch r]
      | S _ =>
          EvFetch r :: EvSleep (backoff_delay i (random w d))
          :: retry_events r (S d) (S i) k'
      end
  end.

(** The state after [k] attempts at [r] starting from [s]. *)
Definition retry_state {A} (s : state data) (r : request data A) (i k : nat)
    : state data :=
  {| _global_request_timestamps := _global_request_timestamps s;
     _last_ticker_request := _last_ticker_request s;
     _cache := _cache s;
     ticks := ticks s;
     calls := k + calls s;
     draws := (k - 1) + draws s;
     trace := trace s ++ retry_events r (draws s) i k |}.

(** The payload a call would store if its last fetcher were the [n]-th
    upstream call: the provider's successful answer, transformed as the
    handler transforms it. *)
Definition payload_at (c : tool_call) (n : nat) : option string :=
  match c with
  | GetHistoricalStockPrices t p i =>
      match upstream w _ n (History t p i) with
      | Ok d => Some (to_json_dated w d)
      | Fail _ => None
      end
  | GetStockInfo t =>
      match upstream w _ n (Info t) with
      | Ok d => Some (json_dumps w d)
      | Fail _ => None
      end
  | GetYahooFinanceNews t =>
      match upstream w _ n (News t) with
      | Ok news =>
          match map news_text
                    (filter (fun x => contentType x = "STORY") news) with
          | [] => None
          | stories => Some (join (newline +:+ newline) stories)
          end
      | Fail _ => None
      end
  | GetStockActions t =>
      match upstream w _ n (Actions t) with
      | Ok d => Some (to_json_dated w d)
      | Fail _ => None
      end
  | GetFinancialStatement t f =>
      match financial_type_of f with
      | Some ft =>
          match upstream w _ n (Statement t ft) with
          | Ok d => Some (statement_json w d)
          | Fail _ => None
          end
      | None => None
      end
  | GetHolderInfo t h =>
      match holder_type_of h with
      | Some ht =>
          match upstream w _ n (Holders t ht) with
          | Ok v => Some v
          | Fail _ => None
          end
      | None => None
      end
  | GetOptionExpirationDates t =>
      match upstream w _ n (Options t) with
      | Ok dates => Some (json_dumps_strs w dates)
      | Fail _ => None
      end
  | GetOptionChain t d o =>
      match upstream w _ n (OptionChain t d) with
      | Ok (calls_df, puts_df) =>
          if String.eqb o "calls" then Some (to_json_iso w calls_df)
          else if String.eqb o "puts" then Some (to_json_iso w puts_df)
          else None
      | Fail _ => None
      end
  | GetRecommendations t r m =>
      if String.eqb r (RecommendationType_value recommendations) then
        match upstream w _ n (Recommendations t) with
        | Ok v => Some v
        | Fail _ => None
        end
      else if String.eqb r (RecommendationType_value upgrades_downgrades) then
        match upstream w _ n (UpgradesDowngrades t) with
        | Ok d =>
            match latest_by_firm_json w d m with
            | Ok v => Some v
            | Fail _ => None
            end
        | Fail _ => None
        end
      else None
  end.

(** Every cached value is the payload of some call with that identity. *)
Definition cache_holds_payloads (s : state data) : Prop :=
  forall k e v,
    _cache s !! k = Some (e, v) ->
    exists c n, cache_key_of c = k /\ payload_at c n = Some v.

(** What a handler says it was getting, in its error sentences. *)
Definition subject_of (c : tool_call) : string :=
  match c with
  | GetHistoricalStockPrices _ _ _ => "historical stock prices"
  | GetStockInfo _ => "stock information"
  | GetYahooFinanceNews _ => "news"
  | GetStockActions _ => "stock actions"
  | GetFinancialStatement _ _ => "financial statement"
  | GetHolderInfo _ _ => "holder info"
  | GetOptionExpirationDates _ => "option expiration dates"
  | GetOptionChain _ _ _ => "option chain"
  | GetRecommendations _ _ _ => "recommendations"
  end.

(** The first fetcher of a handler, run through the retry executor from
    [s], raises [e] and ends in [s']: the ISIN look-up for every handler but
    [get_stock_actions], whose first fetcher is [company.actions]. *)
Definition first_fetch_raises (c : tool_call) (s : state data) (e : exn)
    (s' : state data) : Prop :=
  match c with
  | GetStockActions t =>
      _execute_with_retry w (fetch w (Actions t)) s = (Raise e, s')
  | _ =>
      _execute_with_retry w (fetch w (Isin (ticker_of c))) s = (Raise e, s')
  end.

(** No recorded time lies after the next reading of the clock. *)
Definition none_in_future (s : state data) : Prop :=
  Forall (fun t => (t <= clock w (ticks s))%Q) (_global_request_timestamps s)
  /\ forall ticker last,
       _last_ticker_request s !! ticker = Some last ->
       (last <= clock w (ticks s))%Q.

(** The clock never runs backwards. *)
Definition monotonic_clock : Prop :=
  forall i j, (i <= j)%nat -> (clock w i <= clock w j)%Q.

End Vocabulary.

(** * Properties *)

Local Open Scope list_scope.

(** ** Rationals *)

Lemma Qlt_bool_iff (x y : Q) : Qlt_bool x y = true <-> (x < y)%Q.
Proof.
  unfold Qlt_bool. rewrite negb_true_iff. split.
  - intros H. apply Qnot_le_lt. intros Hle.
    apply Qle_bool_iff in Hle. congruence.
  - intros H. destruct (Qle_bool y x) eqn:E; [|reflexivity].
    apply Qle_bool_iff in E. exfalso. exact (Qlt_not_le _ _ H E).
Qed.

Lemma Qlt_bool_false_iff (x y : Q) : Qlt_bool x y = false <-> (y <= x)%Q.
Proof.
  unfold Qlt_bool. rewrite negb_false_iff. apply Qle_bool_iff.
Qed.

Lemma Qle_bool_false_iff (x y : Q) : Qle_bool x y = false <-> (y < x)%Q.
Proof.
  rewrite <- Qlt_bool_iff. unfold Qlt_bool.
  destruct (Qle_bool x y); simpl; split; congruence.
Qed.

Section Properties.

Context {data : Type}.
Variable w : world data.

(** ** Equations of the governance functions *)

Lemma cache_get_eq (k : list pyarg) (s : state data) :
  _cache_get w k s =
  match _cache s !! k with
  | None => (Ret None, tick s)
  | Some (expires_at, value) =>
      if Qle_bool expires_at (clock w (ticks s))
      then (Ret None, set_cache (delete k (_cache s)) (tick s))
      else (Ret (Some value), tick s)
  end.
Proof.
  unfold _cache_get, bind, monotonic, gets; simpl.
  destruct (_cache s !! k) as [[e v]|]; [|reflexivity].
  destruct (Qle_bool e (clock w (ticks s))); reflexivity.
Qed.

Lemma cache_set_eq (k : list pyarg) (v : string) (s : state data) :
  _cache_set w k v s =
  (Ret tt,
   set_cache (<[k := ((clock w (ticks s) + _CACHE_TTL_SECONDS (cfg w))%Q, v)]>
                (_cache s)) (tick s)).
Proof. reflexivity. Qed.

Lemma rate_limit_check_eq (ticker : string) (s : state data) :
  let now := clock w (ticks s) in
  let kept := prune_loop (now - _GLOBAL_WINDOW_SECONDS (cfg w))%Q
                         (_global_request_timestamps s) in
  let s1 := set_timestamps kept (tick s) in
  let accepted :=
    (Ret (false, None),
     set_last (<[ticker := now]> (_last_ticker_request s))
              (set_timestamps (kept ++ [now]) s1)) in
  _rate_limit_check w ticker s =
  if (Z.of_nat (length kept) >=? _GLOBAL_MAX_REQUESTS (cfg w))%Z then
    match kept with
    | oldest :: _ =>
        (Ret (true, Some (rate_limited_message
                            (_GLOBAL_WINDOW_SECONDS (cfg w) - (now - oldest))%Q)),
         s1)
    | [] => (Raise (Exception "list index out of range"), s1)
    end
  else
    match _last_ticker_request s !! ticker with
    | Some last =>
        if Qlt_bool (now - last)%Q (_PER_TICKER_MIN_INTERVAL_SECONDS (cfg w))
        then
          (Ret (true, Some (rate_limited_message
                  (_PER_TICKER_MIN_INTERVAL_SECONDS (cfg w) - (now - last))%Q)),
           s1)
        else accepted
    | None => accepted
    end.
Proof.
  unfold _rate_limit_check, bind, monotonic, _prune_global_timestamps,
    modify, gets; simpl.
  destruct (Z.of_nat _ >=? _)%Z.
  - destruct (prune_loop _ _); reflexivity.
  - cbn [_last_ticker_request set_timestamps tick].
    destruct (_last_ticker_request s !! ticker) as [l|]; [|reflexivity].
    destruct (Qlt_bool _ _); reflexivity.
Qed.

(** ** The pruning loop *)

Lemma prune_loop_suffix (cutoff : Q) (ts : list Q) :
  exists expired,
    ts = expired ++ prune_loop cutoff ts
    /\ Forall (fun t => (t < cutoff)%Q) expired.
Proof.
  induction ts as [|t rest IH]; simpl.
  - exists []. split; [reflexivity | constructor].
  - destruct (Qlt_bool t cutoff) eqn:E.
    + destruct IH as (expired & Heq & Hall).
      exists (t :: expired). split.
      * simpl. congruence.
      * constructor; [apply Qlt_bool_iff; exact E | exact Hall].
    + exists []. split; [reflexivity | constructor].
Qed.

Lemma filter_all_kept (cutoff : Q) (ts : list Q) :
  Forall (fun t => (cutoff <= t)%Q) ts ->
  List.filter (fun t => Qle_bool cutoff t) ts = ts.
Proof.
  induction 1 as [|t rest Ht _ IH]; simpl; [reflexivity|].
  apply Qle_bool_iff in Ht. rewrite Ht, IH. reflexivity.
Qed.

Lemma prune_loop_filter (cutoff : Q) (ts : list Q) :
  StronglySorted Qle ts ->
  prune_loop cutoff ts = List.filter (fun t => Qle_bool cutoff t) ts.
Proof.
  induction 1 as [|t rest Hsorted IH Hall]; simpl; [reflexivity|].
  unfold Qlt_bool. destruct (Qle_bool cutoff t) eqn:E; simpl.
  - f_equal. symmetry. apply filter_all_kept.
    apply Qle_bool_iff in E.
    eapply Forall_impl; [exact Hall|].
    intros u Hu. simpl in Hu. eapply Qle_trans; eassumption.
  - exact IH.
Qed.

Lemma sorted_strongly (ts : list Q) : Sorted Qle ts -> StronglySorted Qle ts.
Proof.
  apply Sorted_StronglySorted. intros x y z. apply Qle_trans.
Qed.

Lemma filter_sorted_head (cutoff oldest : Q) (ts rest : list Q) :
  StronglySorted Qle ts ->
  List.filter (fun t => Qle_bool cutoff t) ts = oldest :: rest ->
  Forall (Qle oldest) rest.
Proof.
  induction 1 as [|t l Hsorted IH Hall]; simpl; [discriminate|].
  destruct (Qle_bool cutoff t) eqn:E.
  - intros Heq. injection Heq as -> <-.
    apply List.Forall_forall. intros u Hu.
    apply List.filter_In in Hu as [Hu _].
    rewrite List.Forall_forall in Hall. apply Hall. exact Hu.
  - exact IH.
Qed.

(** ** TTL cache *)

(** C5.  [_cache_set k v] stores [v] under [k] with expiry [now + ttl],
    replacing whatever was stored under [k] and touching no other key; a
    [_cache_get k] that follows before the expiry returns [v]; a
    [_cache_get k] at or after the stored expiry of an entry reports absent
    and deletes the entry; and whatever value [_cache_get] returns belongs
    to an entry that has not expired. *)
Theorem cache_set_get_expire (k : list pyarg) (v : string) (s : state data) :
  let now := clock w (ticks s) in
  let expires_at := (now + _CACHE_TTL_SECONDS (cfg w))%Q in
  let s1 := snd (_cache_set w k v s) in
  _cache s1 = <[k := (expires_at, v)]> (_cache s)
  /\ _cache s1 !! k = Some (expires_at, v)
  /\ ((clock w (ticks s1) < expires_at)%Q ->
      (_cache_set w k v ;;; _cache_get w k) s = (Ret (Some v), tick s1))
  /\ (forall (s2 : state data) (e : Q) (v2 : string),
        _cache s2 !! k = Some (e, v2) ->
        (e <= clock w (ticks s2))%Q ->
        exists s3,
          _cache_get w k s2 = (Ret None, s3)
          /\ _cache s3 = delete k (_cache s2)
          /\ _cache s3 !! k = None)
  /\ (forall (s2 s3 : state data) (v2 : string),
        _cache_get w k s2 = (Ret (Some v2), s3) ->
        exists e,
          _cache s2 !! k = Some (e, v2) /\ (clock w (ticks s2) < e)%Q).
Proof.
  intros now expires_at s1. subst s1. rewrite cache_set_eq.
  cbn [snd _cache set_cache ticks tick].
  split; [reflexivity|].
  split; [apply lookup_insert_eq|].
  split.
  - intros Hfresh. unfold bind. rewrite cache_set_eq, cache_get_eq.
    cbn [_cache set_cache ticks tick]. rewrite lookup_insert_eq.
    apply Qle_bool_false_iff in Hfresh. fold now expires_at.
    rewrite Hfresh. reflexivity.
  - split.
    + intros s2 e v2 Hlook Hexp. rewrite cache_get_eq, Hlook.
      apply Qle_bool_iff in Hexp. rewrite Hexp.
      eexists. split; [reflexivity|]. simpl.
      split; [reflexivity | apply lookup_delete_eq].
    + intros s2 s3 v2. rewrite cache_get_eq.
      destruct (_cache s2 !! k) as [[e v0]|]; [|discriminate].
      destruct (Qle_bool e (clock w (ticks s2))) eqn:E; [discriminate|].
      intros [= -> _]. exists e. split; [reflexivity|].
      apply Qle_bool_false_iff. exact E.
Qed.

(** ** Sliding-window limiter and per-ticker throttle *)

Lemma sorted_snoc (ts : list Q) (now : Q) :
  StronglySorted Qle ts ->
  Forall (fun t => (t <= now)%Q) ts ->
  StronglySorted Qle (ts ++ [now]).
Proof.
  induction 1 as [|t rest Hsorted IH Hall]; intros Hle; simpl.
  - repeat constructor.
  - inversion Hle as [|? ? Ht Hrest]; subst.
    constructor; [apply IH; exact Hrest|].
    apply Forall_app. split; [exact Hall | repeat constructor; exact Ht].
Qed.

Lemma prune_loop_sorted (cutoff : Q) (ts : list Q) :
  StronglySorted Qle ts -> StronglySorted Qle (prune_loop cutoff ts).
Proof.
  induction 1 as [|t rest Hsorted IH Hall]; simpl; [constructor|].
  destruct (Qlt_bool t cutoff); [exact IH | constructor; assumption].
Qed.

Lemma prune_loop_Forall (P : Q -> Prop) (cutoff : Q) (ts : list Q) :
  Forall P ts -> Forall P (prune_loop cutoff ts).
Proof.
  induction 1 as [|t rest Ht Hrest IH]; simpl; [constructor|].
  destruct (Qlt_bool t cutoff); [exact IH | constructor; assumption].
Qed.

Lemma rate_limit_check_in_order (ticker : string) (s : state data) :
  (forall i j, (i <= j)%nat -> (clock w i <= clock w j)%Q) ->
  timestamps_in_order w s ->
  timestamps_in_order w (snd (_rate_limit_check w ticker s)).
Proof.
  intros Hmono [Hsorted Hle].
  apply sorted_strongly in Hsorted.
  pose proof (Hmono (ticks s) (S (ticks s)) (Nat.le_succ_diag_r _)) as Hstep.
  set (cutoff := (clock w (ticks s) - _GLOBAL_WINDOW_SECONDS (cfg w))%Q).
  assert (Hkept : timestamps_in_order w
                    (set_timestamps
                       (prune_loop cutoff (_global_request_timestamps s))
                       (tick s))).
  { split; simpl.
    - apply StronglySorted_Sorted, prune_loop_sorted, Hsorted.
    - apply prune_loop_Forall.
      eapply Forall_impl; [exact Hle|]. intros t Ht. simpl in Ht.
      eapply Qle_trans; eassumption. }
  assert (Hrecorded : forall m, timestamps_in_order w
            (set_last m
               (set_timestamps
                  (prune_loop cutoff (_global_request_timestamps s)
                   ++ [clock w (ticks s)])
                  (set_timestamps
                     (prune_loop cutoff (_global_request_timestamps s))
                     (tick s))))).
  { intros m. split; simpl.
    - apply StronglySorted_Sorted, sorted_snoc.
      + apply prune_loop_sorted, Hsorted.
      + apply prune_loop_Forall, Hle.
    - apply Forall_app. split.
      + apply prune_loop_Forall.
        eapply Forall_impl; [exact Hle|]. intros t Ht. simpl in Ht.
        eapply Qle_trans; eassumption.
      + repeat constructor. exact Hstep. }
  rewrite rate_limit_check_eq. fold cutoff.
  destruct (Z.of_nat _ >=? _)%Z.
  - destruct (prune_loop cutoff (_global_request_timestamps s));
      exact Hkept.
  - destruct (_last_ticker_request s !! ticker) as [last|];
      [|apply Hrecorded].
    destruct (Qlt_bool _ _); [exact Hkept | apply Hrecorded].
Qed.

(** C3.  When the global window is not full: a ticker whose last recorded
    call is less than the minimum interval ago is rejected, with
    [retry_after = min_interval - (now - last)] in the message and nothing
    recorded; a ticker that was never seen, or whose last call is at least
    the minimum interval ago, is accepted and [now] is recorded for it. *)
Theorem per_ticker_throttle (ticker : string) (s : state data) :
  let now := clock w (ticks s) in
  let min_interval := _PER_TICKER_MIN_INTERVAL_SECONDS (cfg w) in
  let kept := prune_loop (now - _GLOBAL_WINDOW_SECONDS (cfg w))%Q
                         (_global_request_timestamps s) in
  (Z.of_nat (length kept) < _GLOBAL_MAX_REQUESTS (cfg w))%Z ->
  (forall last,
      _last_ticker_request s !! ticker = Some last ->
      (now - last < min_interval)%Q ->
      _rate_limit_check w ticker s =
      (Ret (true, Some (rate_limited_message (min_interval - (now - last))%Q)),
       set_timestamps kept (tick s)))
  /\ ((_last_ticker_request s !! ticker = None
       \/ exists last,
            _last_ticker_request s !! ticker = Some last
            /\ (min_interval <= now - last)%Q) ->
      exists s',
        _rate_limit_check w ticker s = (Ret (false, None), s')
        /\ _last_ticker_request s' = <[ticker := now]> (_last_ticker_request s)
        /\ _global_request_timestamps s' = kept ++ [now]).
Proof.
  intros now min_interval kept Hroom.
  pose proof (rate_limit_check_eq ticker s) as Heq. simpl in Heq.
  fold now kept min_interval in Heq.
  assert (Hge : (Z.of_nat (length kept) >=? _GLOBAL_MAX_REQUESTS (cfg w))%Z
                = false) by (rewrite Z.geb_leb; apply Z.leb_gt; exact Hroom).
  rewrite Hge in Heq. split.
  - intros last Hlast Hclose. rewrite Heq, Hlast.
    apply Qlt_bool_iff in Hclose. rewrite Hclose. reflexivity.
  - intros [Hnone | (last & Hlast & Hfar)]; rewrite Heq.
    + rewrite Hnone. eexists. split; [reflexivity|]. simpl. auto.
    + rewrite Hlast. apply Qlt_bool_false_iff in Hfar. rewrite Hfar.
      eexists. split; [reflexivity|]. simpl. auto.
Qed.

(** C9.  A rejection by [_rate_limit_check] changes nothing but the pruning
    of expired global timestamps: the per-ticker map and the cache are as
    before, and the global list is the old one without a prefix of entries
    older than the cutoff, with nothing appended. *)
Theorem rejection_records_nothing (ticker : string) (s s' : state data)
    (message : option string) :
  _rate_limit_check w ticker s = (Ret (true, message), s') ->
  let cutoff := (clock w (ticks s) - _GLOBAL_WINDOW_SECONDS (cfg w))%Q in
  _last_ticker_request s' = _last_ticker_request s
  /\ _cache s' = _cache s
  /\ _global_request_timestamps s'
     = prune_loop cutoff (_global_request_timestamps s)
  /\ (exists expired,
        _global_request_timestamps s
        = expired ++ _global_request_timestamps s'
        /\ Forall (fun t => (t < cutoff)%Q) expired)
  /\ (length (_global_request_timestamps s')
      <= length (_global_request_timestamps s))%nat.
Proof.
  intros Hcheck cutoff.
  assert (Hs' : s' = set_timestamps
                       (prune_loop cutoff (_global_request_timestamps s))
                       (tick s)).
  { rewrite rate_limit_check_eq in Hcheck. fold cutoff in Hcheck.
    destruct (Z.of_nat _ >=? _)%Z.
    - destruct (prune_loop cutoff (_global_request_timestamps s));
        congruence.
    - destruct (_last_ticker_request s !! ticker) as [last|];
        [|discriminate].
      destruct (Qlt_bool _ _); congruence. }
  subst s'. simpl.
  destruct (prune_loop_suffix cutoff (_global_request_timestamps s))
    as (expired & Heq & Hold).
  repeat split; try reflexivity.
  - exists expired. split; assumption.
  - rewrite Heq at 2. rewrite length_app. lia.
Qed.

(** C2, as the code has it.  On a list in recording order the check keeps
    exactly the timestamps that are not older than [now - window].  If at
    least [max] of them remain, the call is rejected with
    [retry_after = window - (now - oldest)], [oldest] being the first and
    smallest of them.  Otherwise the global window does not reject, and
    [now] is recorded and the call accepted exactly when the per-ticker
    throttle lets the ticker through; when it does not, the call is rejected
    and [now] is not recorded. *)
Theorem global_window_check (ticker : string) (s s' : state data)
    (r : outcome (bool * option string)) :
  Sorted Qle (_global_request_timestamps s) ->
  (0 < _GLOBAL_MAX_REQUESTS (cfg w))%Z ->
  _rate_limit_check w ticker s = (r, s') ->
  let now := clock w (ticks s) in
  let window := _GLOBAL_WINDOW_SECONDS (cfg w) in
  let kept := List.filter (fun t => Qle_bool (now - window) t)
                          (_global_request_timestamps s) in
  let throttled :=
    exists last,
      _last_ticker_request s !! ticker = Some last
      /\ (now - last < _PER_TICKER_MIN_INTERVAL_SECONDS (cfg w))%Q in
  ((Z.of_nat (length kept) >= _GLOBAL_MAX_REQUESTS (cfg w))%Z ->
     exists oldest rest,
       kept = oldest :: rest
       /\ Forall (Qle oldest) rest
       /\ r = Ret (true, Some (rate_limited_message
                                 (window - (now - oldest))%Q))
       /\ _global_request_timestamps s' = kept)
  /\ ((Z.of_nat (length kept) < _GLOBAL_MAX_REQUESTS (cfg w))%Z ->
      (~ throttled ->
         r = Ret (false, None)
         /\ _global_request_timestamps s' = kept ++ [now])
      /\ (throttled ->
         (exists message, r = Ret (true, Some message))
         /\ _global_request_timestamps s' = kept)).
Proof.
  intros Hsorted Hmax Hcheck now window kept throttled.
  apply sorted_strongly in Hsorted.
  rewrite rate_limit_check_eq in Hcheck. simpl in Hcheck.
  rewrite (prune_loop_filter _ _ Hsorted) in Hcheck.
  fold now window kept in Hcheck.
  split.
  - intros Hfull.
    assert (Hge : (Z.of_nat (length kept) >=? _GLOBAL_MAX_REQUESTS (cfg w))%Z
                  = true) by (rewrite Z.geb_leb; apply Z.leb_le; lia).
    rewrite Hge in Hcheck.
    destruct kept as [|oldest rest] eqn:Hkept; [simpl in Hfull; lia|].
    injection Hcheck as <- <-.
    exists oldest, rest. repeat split.
    eapply filter_sorted_head; [exact Hsorted | exact Hkept].
  - intros Hroom.
    assert (Hge : (Z.of_nat (length kept) >=? _GLOBAL_MAX_REQUESTS (cfg w))%Z
                  = false) by (rewrite Z.geb_leb; apply Z.leb_gt; exact Hroom).
    rewrite Hge in Hcheck. subst throttled. split.
    + intros Hfree.
      destruct (_last_ticker_request s !! ticker) as [last|] eqn:Hlast.
      * destruct (Qlt_bool _ _) eqn:E.
        -- exfalso. apply Hfree. exists last. split; [reflexivity|].
           apply Qlt_bool_iff. exact E.
        -- injection Hcheck as <- <-. split; reflexivity.
      * injection Hcheck as <- <-. split; reflexivity.
    + intros (last & Hlast & Hclose). rewrite Hlast in Hcheck.
      apply Qlt_bool_iff in Hclose. fold now in Hclose.
      rewrite Hclose in Hcheck. injection Hcheck as <- <-.
      split; [eexists; reflexivity | reflexivity].
Qed.

(** ** Cache hits *)

(** C1.  When the cache holds an entry for the operation identity that has
    not expired at the handler's reading of the clock, the handler returns
    the cached value and the state is the old one with one more clock
    reading: both limiters, the cache, the number of upstream calls and the
    effect log are untouched, whatever the limiters hold. *)
Theorem cache_hit_short_circuits (c : tool_call) (s : state data)
    (expires_at : Q) (value : string) :
  _cache s !! cache_key_of c = Some (expires_at, value) ->
  (clock w (ticks s) < expires_at)%Q ->
  handle w c s = (Ret (Some value), tick s).
Proof.
  intros Hlook Hfresh. apply Qle_bool_false_iff in Hfresh.
  destruct c; simpl in Hlook;
    unfold handle, some, get_historical_stock_prices, get_stock_info,
      get_yahoo_finance_news, get_stock_actions, get_financial_statement,
      get_holder_info, get_option_expiration_dates, get_option_chain,
      get_recommendations;
    lazy zeta; unfold bind at 1; try unfold bind at 1;
    rewrite cache_get_eq, Hlook, Hfresh; reflexivity.
Qed.

(** ** Substring test *)

Lemma append_cons (c : ascii) (s t : string) :
  String c s +:+ t = String c (s +:+ t).
Proof. reflexivity. Qed.

Lemma append_nil (t : string) : "" +:+ t = t.
Proof. reflexivity. Qed.

Lemma prefix_split (needle hay : string) :
  String.prefix needle hay = true <-> exists post, hay = needle +:+ post.
Proof.
  revert needle. induction hay as [|d hay IH]; intros [|c needle]; simpl.
  - split; [intros _; exists ""; reflexivity | reflexivity].
  - split; [discriminate|]. intros [post Hpost].
    rewrite append_cons in Hpost. discriminate.
  - split; [intros _; exists (String d hay); reflexivity | reflexivity].
  - destruct (ascii_dec c d) as [->|Hne].
    + rewrite IH. split; intros [post Hpost]; exists post;
        rewrite append_cons in *; congruence.
    + split; [discriminate|]. intros [post Hpost].
      rewrite append_cons in Hpost. congruence.
Qed.

Lemma contains_split (needle hay : string) :
  contains needle hay = true
  <-> exists pre post, hay = pre +:+ needle +:+ post.
Proof.
  induction hay as [|c hay IH].
  - change (contains needle "") with (String.prefix needle "" || false).
    rewrite orb_false_r, prefix_split. split.
    + intros [post Hpost]. exists "", post. exact Hpost.
    + intros (pre & post & Hsplit). exists post.
      destruct pre; [exact Hsplit|].
      rewrite append_cons in Hsplit. discriminate.
  - change (contains needle (String c hay))
      with (String.prefix needle (String c hay) || contains needle hay).
    rewrite orb_true_iff, prefix_split, IH. split.
    + intros [[post Hpost] | (pre & post & Hsplit)].
      * exists "", post. exact Hpost.
      * exists (String c pre), post. rewrite append_cons. congruence.
    + intros (pre & post & Hsplit). destruct pre as [|d pre].
      * left. exists post. exact Hsplit.
      * right. exists pre, post. rewrite append_cons in Hsplit. congruence.
Qed.

(** The classification of a failure as transient, in words: the lowered
    message has one of the two needles as a substring. *)
Lemma is_rate_limited_error_iff (exc : exn) :
  _is_rate_limited_error exc = true
  <-> (exists pre post,
         lower (str exc) = pre +:+ "too many requests" +:+ post)
      \/ (exists pre post,
            lower (str exc) = pre +:+ "rate limited" +:+ post).
Proof.
  unfold _is_rate_limited_error. cbv zeta.
  rewrite orb_true_iff, !contains_split. reflexivity.
Qed.

(** ** Retry executor *)

Lemma retry_loop_step {A} (r : request data A) (n : nat) (attempt_no : Z)
    (last_error : option exn) (s : state data) :
  let s1 := count_call (log (EvFetch r) s) in
  retry_loop w (fetch w r) (S n) attempt_no last_error s =
  match upstream w A (calls s) r with
  | Ok v => (Ret v, s1)
  | Fail exc =>
      if negb (_is_rate_limited_error exc)
         || (attempt_no >=? _MAX_RETRIES (cfg w))%Z
      then (Raise exc, s1)
      else
        let backoff :=
          (_BACKOFF_BASE_SECONDS (cfg w) * inject_Z (2 ^ attempt_no))%Q in
        let jitter :=
          (0 + ((3 # 10) * backoff - 0) * random w (draws s))%Q in
        retry_loop w (fetch w r) n (attempt_no + 1) (Some exc)
          (log (EvSleep (backoff + jitter)%Q) (count_draw s1))
  end.
Proof.
  cbn [retry_loop]. unfold bind at 1, guarded, fetch.
  destruct (upstream w A (calls s) r) as [v|exc]; [reflexivity|].
  cbv zeta. destruct (negb _ || _); reflexivity.
Qed.

(** What a run of the loop leaves alone, and where a returned value comes
    from; this holds for any number of iterations. *)
Lemma retry_loop_frame {A} (r : request data A) (n : nat) :
  forall (attempt_no : Z) (last_error : option exn) (s s' : state data)
         (res : outcome A),
    retry_loop w (fetch w r) n attempt_no last_error s = (res, s') ->
    _global_request_timestamps s' = _global_request_timestamps s
    /\ _last_ticker_request s' = _last_ticker_request s
    /\ _cache s' = _cache s
    /\ ticks s' = ticks s
    /\ (calls s <= calls s')%nat
    /\ (exists evs,
          trace s' = trace s ++ evs
          /\ Forall (fun e => e = EvFetch r \/ exists d, e = EvSleep d) evs)
    /\ (forall v, res = Ret v ->
          exists i, (calls s <= i < calls s')%nat
                    /\ upstream w A i r = Ok v).
Proof.
  induction n as [|n IH]; intros attempt_no last_error s s' res Hrun.
  - cbn [retry_loop] in Hrun. unfold raise_last, raise in Hrun.
    assert (s' = s /\ exists e, res = Raise e) as [-> [e ->]]
      by (destruct last_error; injection Hrun as <- <-; eauto).
    repeat split; try reflexivity.
    + exists []. rewrite app_nil_r. split; [reflexivity | constructor].
    + intros v Hv. discriminate.
  - rewrite retry_loop_step in Hrun. cbv zeta in Hrun.
    destruct (upstream w A (calls s) r) as [v|exc] eqn:Hup.
    + injection Hrun as <- <-. simpl. repeat split; try lia.
      * exists [EvFetch r]. split; [reflexivity|].
        repeat constructor.
      * intros v' [= <-]. exists (calls s). split; [lia | exact Hup].
    + destruct (negb _ || _).
      * injection Hrun as <- <-. simpl. repeat split; try lia.
        -- exists [EvFetch r]. split; [reflexivity|].
           repeat constructor.
        -- intros v' Hv'. discriminate.
      * apply IH in Hrun. simpl in Hrun.
        destruct Hrun as (Hg & Hl & Hc & Ht & Hcalls & (evs & Hev & Hall) & Hret).
        repeat split; try assumption; try lia.
        -- eexists (EvFetch r :: EvSleep _ :: evs). split.
           ++ rewrite Hev, <- !app_assoc. reflexivity.
           ++ constructor; [left; reflexivity|].
              constructor; [right; eexists; reflexivity | exact Hall].
        -- intros v Hv. destruct (Hret v Hv) as (i & Hi & Hok).
           exists i. split; [lia | exact Hok].
Qed.

(** A run of the loop that has at least one iteration to go, as a function
    of the provider's answers. *)
Lemma retry_loop_spec {A} (r : request data A) (n : nat) :
  forall (i : nat) (last_error : option exn) (s : state data),
    (Z.of_nat i + Z.of_nat (S n) = _MAX_RETRIES (cfg w) + 1)%Z ->
    exists (k : nat) (res : outcome A),
      (1 <= k <= S n)%nat
      /\ retry_loop w (fetch w r) (S n) (Z.of_nat i) last_error s
         = (res, retry_state w s r i k)
      /\ (forall j, (j < k - 1)%nat ->
            exists e, upstream w A (j + calls s) r = Fail e
                      /\ _is_rate_limited_error e = true)
      /\ match upstream w A ((k - 1) + calls s) r with
         | Ok v => res = Ret v
         | Fail e =>
             res = Raise e
             /\ (_is_rate_limited_error e = false \/ k = S n)
         end.
Proof.
  induction n as [|n IH]; intros i last_error s Hbudget;
    rewrite retry_loop_step; cbv zeta.
  - (* the last allowed attempt *)
    assert (Hlast : (Z.of_nat i >=? _MAX_RETRIES (cfg w))%Z = true)
      by (rewrite Z.geb_leb; apply Z.leb_le; lia).
    rewrite Hlast.
    destruct (upstream w A (calls s) r) as [v|exc] eqn:Hup;
      [|rewrite orb_true_r]; exists 1%nat; eexists;
      (split; [lia|]); (split; [reflexivity|]);
      (split; [intros j Hj; lia|]); simpl; rewrite Hup; auto.
  - destruct (upstream w A (calls s) r) as [v|exc] eqn:Hup.
    + exists 1%nat, (Ret v).
      split; [lia|]. split; [reflexivity|].
      split; [intros j Hj; lia | simpl; rewrite Hup; reflexivity].
    + assert (Hmore : (Z.of_nat i >=? _MAX_RETRIES (cfg w))%Z = false)
        by (rewrite Z.geb_leb; apply Z.leb_gt; lia).
      rewrite Hmore, orb_false_r.
      destruct (_is_rate_limited_error exc) eqn:Htransient; simpl negb; cbv iota.
      * replace (Z.of_nat i + 1)%Z with (Z.of_nat (S i)) by lia.
        edestruct (IH (S i) (Some exc)) as (k & res & Hk & Hrun & Hbefore & Hlast);
          [lia|].
        exists (S k), res. split; [lia|]. split; [|split].
        -- rewrite Hrun. f_equal.
           unfold retry_state; simpl.
           destruct k as [|k]; [lia|].
           f_equal; try lia.
           rewrite <- !app_assoc. reflexivity.
        -- intros j Hj. destruct j as [|j].
           ++ exists exc. split; [exact Hup | exact Htransient].
           ++ destruct (Hbefore j) as (e & He & Hte); [lia|].
              exists e. split; [|exact Hte].
              simpl in He. rewrite <- He. f_equal. lia.
        -- simpl in Hlast.
           replace (S k - 1 + calls s)%nat with (k - 1 + S (calls s))%nat
             by lia.
           destruct (upstream w A (k - 1 + S (calls s)) r) as [v|e];
             [exact Hlast|].
           destruct Hlast as [Hres [Hnt | Hk']]; split; auto.
      * exists 1%nat, (Raise exc).
        split; [lia|]. split; [reflexivity|].
        split; [intros j Hj; lia | simpl; rewrite Hup; auto].
Qed.

Lemma retry_events_fetches {A} (r : request data A) (k : nat) :
  forall d i, length (List.filter is_fetch (retry_events w r d i k)) = k.
Proof.
  induction k as [|k IH]; intros d i; [reflexivity|].
  destruct k as [|k]; [reflexivity|].
  change (retry_events w r d i (S (S k)))
    with (EvFetch r :: EvSleep (backoff_delay w i (random w d))
          :: retry_events w r (S d) (S i) (S k)).
  cbn [List.filter is_fetch length]. rewrite IH. reflexivity.
Qed.

Lemma execute_with_retry_spec {A} (r : request data A) (s : state data) :
  (0 <= _MAX_RETRIES (cfg w))%Z ->
  exists (k : nat) (res : outcome A),
    (1 <= k)%nat /\ (Z.of_nat k <= _MAX_RETRIES (cfg w) + 1)%Z
    /\ _execute_with_retry w (fetch w r) s = (res, retry_state w s r 0 k)
    /\ (forall j, (j < k - 1)%nat ->
          exists e, upstream w A (j + calls s) r = Fail e
                    /\ _is_rate_limited_error e = true)
    /\ match upstream w A ((k - 1) + calls s) r with
       | Ok v => res = Ret v
       | Fail e =>
           res = Raise e
           /\ (_is_rate_limited_error e = false
               \/ Z.of_nat (k - 1) = _MAX_RETRIES (cfg w))
       end.
Proof.
  intros Hmax. unfold _execute_with_retry.
  replace (Z.to_nat (_MAX_RETRIES (cfg w) + 1))
    with (S (Z.to_nat (_MAX_RETRIES (cfg w)))) by lia.
  destruct (retry_loop_spec r (Z.to_nat (_MAX_RETRIES (cfg w))) 0 None s)
    as (k & res & Hk & Hrun & Hbefore & Hlast); [lia|].
  exists k, res. split; [lia|]. split; [lia|].
  split; [exact Hrun|]. split; [exact Hbefore|].
  destruct (upstream w A (k - 1 + calls s) r) as [v|e]; [exact Hlast|].
  destruct Hlast as [Hres [Hnt | Hk']]; split; auto. right. lia.
Qed.

(** C4.  With [_MAX_RETRIES >= 0] the executor calls the fetcher [k] times,
    [1 <= k <= _MAX_RETRIES + 1]; every call but the last failed with a
    transient error; the last call either succeeded, and its value is
    returned, or failed, and its error is raised, in which case the error
    is not transient or the call was attempt number [_MAX_RETRIES]; an error
    is transient exactly when its lowered message contains "too many
    requests" or "rate limited". *)
Theorem retry_executor_attempts {A} (r : request data A) (s : state data) :
  (0 <= _MAX_RETRIES (cfg w))%Z ->
  exists (k : nat) (res : outcome A) (s' : state data),
    _execute_with_retry w (fetch w r) s = (res, s')
    /\ calls s' = (k + calls s)%nat
    /\ (exists evs, trace s' = trace s ++ evs
                    /\ length (List.filter is_fetch evs) = k)
    /\ (1 <= k)%nat
    /\ (Z.of_nat k <= _MAX_RETRIES (cfg w) + 1)%Z
    /\ (forall j, (j < k - 1)%nat ->
          exists e, upstream w A (j + calls s) r = Fail e
                    /\ _is_rate_limited_error e = true)
    /\ match upstream w A ((k - 1) + calls s) r with
       | Ok v => res = Ret v
       | Fail e =>
           res = Raise e
           /\ (_is_rate_limited_error e = false
               \/ Z.of_nat (k - 1) = _MAX_RETRIES (cfg w))
       end
    /\ (forall e,
          _is_rate_limited_error e = true
          <-> (exists pre post,
                 lower (str e) = pre +:+ "too many requests" +:+ post)
              \/ (exists pre post,
                    lower (str e) = pre +:+ "rate limited" +:+ post)).
Proof.
  intros Hmax.
  destruct (execute_with_retry_spec r s Hmax)
    as (k & res & Hk1 & Hk2 & Hrun & Hbefore & Hlast).
  exists k, res, (retry_state w s r 0 k).
  split; [exact Hrun|]. split; [reflexivity|].
  split.
  { eexists. split; [reflexivity | apply retry_events_fetches]. }
  split; [exact Hk1|]. split; [exact Hk2|].
  split; [exact Hbefore|]. split; [exact Hlast|].
  apply is_rate_limited_error_iff.
Qed.

(** ** Backoff delays *)

Lemma pow2_positive (i : nat) : (0 < inject_Z (2 ^ Z.of_nat i))%Q.
Proof.
  pose proof (Z.pow_pos_nonneg 2 (Z.of_nat i)) as Hpow.
  unfold Qlt, inject_Z. cbn [Qnum Qden]. lia.
Qed.

Lemma pow2_double (i : nat) :
  (inject_Z (2 ^ Z.of_nat (S i)) == 2 * inject_Z (2 ^ Z.of_nat i))%Q.
Proof.
  rewrite Nat2Z.inj_succ, Z.pow_succ_r by lia.
  rewrite inject_Z_mult. reflexivity.
Qed.

Lemma backoff_delay_bounds (i : nat) (u : Q) :
  (0 < _BACKOFF_BASE_SECONDS (cfg w))%Q ->
  (0 <= u <= 1)%Q ->
  let backoff :=
    (_BACKOFF_BASE_SECONDS (cfg w) * inject_Z (2 ^ Z.of_nat i))%Q in
  (0 < backoff
   /\ backoff <= backoff_delay w i u
   /\ backoff_delay w i u <= (13 # 10) * backoff)%Q.
Proof.
  intros Hbase [Hu0 Hu1] backoff.
  assert (Hpos : (0 < backoff)%Q).
  { unfold backoff. apply Qmult_lt_0_compat; [exact Hbase|].
    apply pow2_positive. }
  unfold backoff_delay. fold backoff.
  assert (Hj0 : (0 <= backoff * u)%Q)
    by (apply Qmult_le_0_compat; [apply Qlt_le_weak|]; assumption).
  assert (Hj1 : (backoff * u <= backoff)%Q).
  { rewrite <- (Qmult_1_r backoff) at 2.
    apply Qmult_le_l; assumption. }
  split; [exact Hpos|]. split; lra.
Qed.

(** C8.  The effects of the executor are [k] attempts with one sleep
    between consecutive attempts.  There is a sleep after attempt [j]
    exactly when attempts [0..j] all failed with a transient error and
    [j < _MAX_RETRIES]; that sleep lasts
    [base * 2^j + uniform(0, 0.3 * base * 2^j)], which lies between
    [base * 2^j] and [1.3 * base * 2^j], and is shorter than the sleep after
    attempt [j + 1]; a first attempt failing with another error is followed
    by nothing at all. *)
Theorem backoff_delays {A} (r : request data A) (s : state data) :
  (0 < _BACKOFF_BASE_SECONDS (cfg w))%Q ->
  (forall n, (0 <= random w n <= 1)%Q) ->
  exists k : nat,
    let s' := snd (_execute_with_retry w (fetch w r) s) in
    trace s' = trace s ++ retry_events w r (draws s) 0 k
    /\ (forall j,
          (S j < k)%nat
          <-> ((Z.of_nat j < _MAX_RETRIES (cfg w))%Z
               /\ forall j', (j' <= j)%nat ->
                    exists e, upstream w A (j' + calls s) r = Fail e
                              /\ _is_rate_limited_error e = true))
    /\ (forall i n,
          let backoff :=
            (_BACKOFF_BASE_SECONDS (cfg w) * inject_Z (2 ^ Z.of_nat i))%Q in
          (backoff_delay w i (random w n)
           = backoff + (0 + ((3 # 10) * backoff - 0) * random w n))%Q
          /\ (backoff <= backoff_delay w i (random w n))%Q
          /\ (backoff_delay w i (random w n) <= (13 # 10) * backoff)%Q)
    /\ (forall i n n',
          (backoff_delay w i (random w n)
           < backoff_delay w (S i) (random w n'))%Q)
    /\ (forall e,
          (0 <= _MAX_RETRIES (cfg w))%Z ->
          upstream w A (calls s) r = Fail e ->
          _is_rate_limited_error e = false ->
          trace s' = trace s ++ [EvFetch r]).
Proof.
  intros Hbase Hrandom.
  assert (Hbounds : forall i n,
            let backoff :=
              (_BACKOFF_BASE_SECONDS (cfg w) * inject_Z (2 ^ Z.of_nat i))%Q in
            (backoff_delay w i (random w n)
             = backoff + (0 + ((3 # 10) * backoff - 0) * random w n))%Q
            /\ (backoff <= backoff_delay w i (random w n))%Q
            /\ (backoff_delay w i (random w n) <= (13 # 10) * backoff)%Q).
  { intros i n backoff. split; [reflexivity|].
    apply (backoff_delay_bounds i (random w n) Hbase (Hrandom n)). }
  assert (Hgrow : forall i n n',
            (backoff_delay w i (random w n)
             < backoff_delay w (S i) (random w n'))%Q).
  { intros i n n'.
    destruct (backoff_delay_bounds i (random w n) Hbase (Hrandom n))
      as (Hpos & _ & Hup).
    destruct (backoff_delay_bounds (S i) (random w n') Hbase (Hrandom n'))
      as (_ & Hlow & _).
    pose proof (pow2_double i) as Hdouble.
    set (b := (_BACKOFF_BASE_SECONDS (cfg w) * inject_Z (2 ^ Z.of_nat i))%Q)
      in *.
    assert (Hnext : (_BACKOFF_BASE_SECONDS (cfg w)
                     * inject_Z (2 ^ Z.of_nat (S i)) == 2 * b)%Q).
    { unfold b. rewrite Hdouble. ring. }
    rewrite Hnext in Hlow. lra. }
  destruct (Z_lt_le_dec (_MAX_RETRIES (cfg w)) 0) as [Hneg | Hmax].
  - (* no iteration at all *)
    exists 0%nat. unfold _execute_with_retry.
    replace (Z.to_nat (_MAX_RETRIES (cfg w) + 1)) with 0%nat by lia.
    cbn [retry_loop raise_last raise snd retry_events].
    split; [rewrite app_nil_r; reflexivity|].
    split; [intros j; split; [lia | intros [Hj _]; lia]|].
    split; [exact Hbounds|]. split; [exact Hgrow|].
    intros e Hmax _ _. lia.
  - destruct (execute_with_retry_spec r s Hmax)
      as (k & res & Hk1 & Hk2 & Hrun & Hbefore & Hlast).
    exists k. rewrite Hrun. cbn [snd retry_state trace].
    split; [reflexivity|].
    split; [|split; [exact Hbounds|split; [exact Hgrow|]]].
    + intros j. split.
      * intros Hj. split; [lia|]. intros j' Hj'. apply Hbefore. lia.
      * intros [Hj Hall].
        destruct (Nat.lt_ge_cases (S j) k) as [|Hshort]; [assumption|].
        exfalso. destruct (Hall (k - 1)%nat) as (e & He & Htransient);
          [lia|].
        rewrite He in Hlast. destruct Hlast as [_ [Hnt | Hend]];
          [congruence | lia].
    + intros e _ He Hnt.
      destruct (Nat.eq_dec k 1) as [-> | Hk]; [reflexivity|].
      exfalso. destruct (Hbefore 0%nat) as (e' & He' & Htransient); [lia|].
      simpl in He'. congruence.
Qed.

(** ** What the parts of a handler leave alone *)

Lemma cache_get_frame (k : list pyarg) (s s1 : state data)
    (r : outcome (option string)) :
  _cache_get w k s = (r, s1) ->
  calls s1 = calls s
  /\ trace s1 = trace s
  /\ _global_request_timestamps s1 = _global_request_timestamps s
  /\ _last_ticker_request s1 = _last_ticker_request s
  /\ ((r = Ret None /\ _cache s1 = delete k (_cache s))
      \/ (exists e v, r = Ret (Some v) /\ _cache s1 = _cache s
                      /\ _cache s !! k = Some (e, v))).
Proof.
  rewrite cache_get_eq.
  destruct (_cache s !! k) as [[e v]|] eqn:Hlook.
  - destruct (Qle_bool e (clock w (ticks s))); intros [= <- <-]; simpl;
      repeat split; eauto 10.
  - intros [= <- <-]; simpl. repeat split. left. split; [reflexivity|].
    symmetry. apply delete_id. exact Hlook.
Qed.

Lemma rate_limit_check_frame (ticker : string) (s s1 : state data)
    (r : outcome (bool * option string)) :
  _rate_limit_check w ticker s = (r, s1) ->
  calls s1 = calls s /\ trace s1 = trace s /\ _cache s1 = _cache s.
Proof.
  rewrite rate_limit_check_eq. cbv zeta.
  destruct (Z.of_nat _ >=? _)%Z.
  - destruct (prune_loop _ _); intros [= <- <-]; repeat split.
  - destruct (_last_ticker_request s !! ticker) as [last|].
    + destruct (Qlt_bool _ _); intros [= <- <-]; repeat split.
    + intros [= <- <-]; repeat split.
Qed.

Lemma execute_with_retry_frame {A} (r : request data A) (s s1 : state data)
    (res : outcome A) :
  _execute_with_retry w (fetch w r) s = (res, s1) ->
  _global_request_timestamps s1 = _global_request_timestamps s
  /\ _last_ticker_request s1 = _last_ticker_request s
  /\ _cache s1 = _cache s
  /\ ticks s1 = ticks s
  /\ (calls s <= calls s1)%nat
  /\ (exists evs,
        trace s1 = trace s ++ evs
        /\ Forall (fun e => e = EvFetch r \/ exists d, e = EvSleep d) evs)
  /\ (forall v, res = Ret v ->
        exists i, (calls s <= i < calls s1)%nat /\ upstream w A i r = Ok v).
Proof. apply retry_loop_frame. Qed.

(** ** Running a handler symbolically *)

Ltac unfold_handlers H :=
  unfold handle, some, get_historical_stock_prices, get_stock_info,
    get_yahoo_finance_news, get_stock_actions, get_financial_statement,
    get_holder_info, get_option_expiration_dates, get_option_chain,
    get_recommendations in H;
  unfold lift_response, print, sleep, modify, bind, guarded, ret, raise in H.

(** Split [H : handler s = (res, s')] into one case per path through the
    handler, leaving an equation for every governed step on the path. *)
Ltac run_handler H :=
  repeat (
    cbv beta iota zeta in H;
    rewrite ?cache_set_eq in H;
    match type of H with
    | context [match ?x with _ => _ end] =>
        lazymatch x with
        | context [match _ with _ => _ end] => fail
        | _ => idtac
        end;
        first [ is_var x; destruct x
              | let E := fresh "Hrun" in destruct x eqn:E ]
    end);
  cbv beta iota zeta in H.

Ltac frame_facts :=
  repeat match goal with
  | E : _cache_get _ _ _ = _ |- _ =>
      apply cache_get_frame in E;
      destruct E as (? & ? & ? & ? & [[? ?] | (? & ? & ? & ? & ?)])
  | E : _rate_limit_check _ _ _ = _ |- _ =>
      apply rate_limit_check_frame in E; destruct E as (? & ? & ?)
  | E : _execute_with_retry _ (fetch _ _) _ = _ |- _ =>
      apply execute_with_retry_frame in E;
      destruct E as (? & ? & ? & ? & ? & ? & ?)
  end.

Ltac use_returns :=
  repeat match goal with
  | H : forall v, Ret ?a = Ret v -> _ |- _ =>
      specialize (H a eq_refl); destruct H as (? & ? & ?)
  | H : forall v, Raise _ = Ret v -> _ |- _ => clear H
  end.

Ltac rewrite_equations :=
  repeat match goal with
  | E : ?l = _ |- context [?l] => rewrite E
  end.

Lemma handle_cache_step (c : tool_call) (s s' : state data)
    (res : outcome (option string)) :
  handle w c s = (res, s') ->
  _cache s' = _cache s
  \/ _cache s' = delete (cache_key_of c) (_cache s)
  \/ exists v expires_at n,
       res = Ret (Some v)
       /\ (calls s <= n < calls s')%nat
       /\ payload_at w c n = Some v
       /\ _cache s' = <[cache_key_of c := (expires_at, v)]> (_cache s).
Proof.
  intros H. destruct c; unfold_handlers H; run_handler H.
  all: try discriminate.
  all: injection H as <- <-.
  all: frame_facts; try discriminate; use_returns.
  all: cbn [_cache calls log set_cache tick cache_key_of].
  all: first
    [ left; congruence
    | right; left; congruence
    | right; right;
      match goal with
      | Hi : upstream _ _ ?i _ = Ok _ |- _ =>
          eexists _, _, i;
          split; [reflexivity|];
          split; [lia|];
          split;
          [ cbn [payload_at]; rewrite_equations; reflexivity
          | match goal with
            | |- <[?k := ?x]> _ = _ =>
                transitivity (<[k := x]> (delete k (_cache s)));
                [ f_equal; congruence | apply insert_delete_eq ]
            end ]
      end ].
Qed.


(** ** The cache holds payloads only *)

Lemma cache_key_of_inj (c c' : tool_call) :
  cache_key_of c = cache_key_of c' -> c = c'.
Proof.
  destruct c, c'; simpl; intros Heq; try discriminate;
    injection Heq; intros; subst; reflexivity.
Qed.

Lemma handle_preserves_payloads (c : tool_call) (s : state data) :
  cache_holds_payloads w s ->
  cache_holds_payloads w (snd (handle w c s)).
Proof.
  intros Hinv.
  destruct (handle w c s) as [res s'] eqn:Hrun. simpl.
  destruct (handle_cache_step c s s' res Hrun)
    as [Hsame | [Hdel | (v & e & n & _ & _ & Hpay & Hins)]];
    intros k e' v' Hlook.
  - rewrite Hsame in Hlook. eapply Hinv. exact Hlook.
  - rewrite Hdel in Hlook. apply lookup_delete_Some in Hlook as [_ Hlook].
    eapply Hinv. exact Hlook.
  - rewrite Hins in Hlook.
    destruct (decide (cache_key_of c = k)) as [<- | Hne].
    + rewrite lookup_insert_eq in Hlook. injection Hlook as <- <-.
      exists c, n. split; [reflexivity | exact Hpay].
    + rewrite lookup_insert_ne in Hlook by exact Hne.
      eapply Hinv. exact Hlook.
Qed.

Lemma state_after_snoc (cs : list tool_call) (c : tool_call) :
  state_after w (cs ++ [c]) = snd (handle w c (state_after w cs)).
Proof. unfold state_after. rewrite fold_left_app. reflexivity. Qed.

Lemma reachable_cache_holds_payloads (cs : list tool_call) :
  cache_holds_payloads w (state_after w cs).
Proof.
  induction cs as [|c cs IH] using rev_ind.
  - intros k e v Hlook. unfold state_after in Hlook. simpl in Hlook.
    rewrite lookup_empty in Hlook. discriminate.
  - rewrite state_after_snoc. apply handle_preserves_payloads, IH.
Qed.

(** C10.  In every state reached by running tool calls from a fresh
    process, each cached value is the transformed payload of a successful
    fetch made for the call whose identity is its key.  A further call
    leaves the cache as it is, or evicts the entry under its own key, or
    stores under its own key the payload of a successful fetch it made,
    which is then the very string it returns; and a hit on an unexpired
    entry returns such a payload. *)
Theorem cache_holds_payloads_only (cs : list tool_call) (c : tool_call) :
  let s := state_after w cs in
  let res := fst (handle w c s) in
  let s' := snd (handle w c s) in
  cache_holds_payloads w s
  /\ (_cache s' = _cache s
      \/ _cache s' = delete (cache_key_of c) (_cache s)
      \/ exists v expires_at n,
           res = Ret (Some v)
           /\ (calls s <= n < calls s')%nat
           /\ payload_at w c n = Some v
           /\ _cache s' = <[cache_key_of c := (expires_at, v)]> (_cache s))
  /\ (forall expires_at v,
        _cache s !! cache_key_of c = Some (expires_at, v) ->
        (clock w (ticks s) < expires_at)%Q ->
        res = Ret (Some v) /\ exists n, payload_at w c n = Some v).
Proof.
  intros s res s'.
  pose proof (reachable_cache_holds_payloads cs) as Hinv. fold s in Hinv.
  split; [exact Hinv|]. split.
  - apply (handle_cache_step c s s' res). subst res s'.
    destruct (handle w c s); reflexivity.
  - intros e v Hlook Hfresh. subst res.
    rewrite (cache_hit_short_circuits c s e v Hlook Hfresh).
    split; [reflexivity|].
    destruct (Hinv _ _ _ Hlook) as (c' & n & Hkey & Hpay).
    apply cache_key_of_inj in Hkey. subst c'. exists n. exact Hpay.
Qed.

(** ** Validation of the statement type *)

Lemma financial_type_of_None (financial_type : string) :
  (forall t, financial_type <> FinancialType_value t) ->
  financial_type_of financial_type = None.
Proof.
  intros Hout. unfold financial_type_of.
  repeat match goal with
  | |- context [String.eqb financial_type (FinancialType_value ?t)] =>
      destruct (String.eqb_spec financial_type (FinancialType_value t))
        as [Heq | _]; [exfalso; exact (Hout t Heq)|]
  end.
  reflexivity.
Qed.

(** C7, as the code has it.  For a statement type outside the six values,
    when the call misses the cache, passes the rate-limit check and the
    ISIN look-up returns a value, [get_financial_statement] returns the
    invalid-type sentence, which lists the six members; by then it has made
    at least one upstream call, all of them ISIN look-ups and none a
    statement fetch, and it has stored nothing in the cache. *)
Theorem invalid_financial_type (ticker financial_type : string)
    (s s1 s2 s3 : state data) (message : option string) (isin : string) :
  (forall t, financial_type <> FinancialType_value t) ->
  _cache_get w [AStr "get_financial_statement"; AStr ticker;
                AStr financial_type] s = (Ret None, s1) ->
  _rate_limit_check w ticker s1 = (Ret (false, message), s2) ->
  _execute_with_retry w (fetch w (Isin ticker)) s2 = (Ret (Some isin), s3) ->
  get_financial_statement w ticker financial_type s
  = (Ret (invalid_financial_type_text w financial_type), s3)
  /\ invalid_financial_type_text w financial_type
     = "Error: invalid financial type " +:+ financial_type
       +:+ ". Please use one of the following: "
       +:+ (enum_format w "FinancialType" "income_stmt" +:+ ", "
            +:+ enum_format w "FinancialType" "quarterly_income_stmt" +:+ ", "
            +:+ enum_format w "FinancialType" "balance_sheet" +:+ ", "
            +:+ enum_format w "FinancialType" "quarterly_balance_sheet"
            +:+ ", "
            +:+ enum_format w "FinancialType" "cashflow" +:+ ", "
            +:+ enum_format w "FinancialType" "quarterly_cashflow")
       +:+ "."
  /\ (calls s < calls s3)%nat
  /\ (exists evs,
        trace s3 = trace s ++ evs
        /\ Forall (fun e => e = EvFetch (Isin ticker) \/ exists d, e = EvSleep d)
                  evs)
  /\ _cache s3 = _cache s1.
Proof.
  intros Hout Hget Hcheck Hisin.
  split; [|split; [reflexivity|]].
  - unfold get_financial_statement, bind, guarded. cbv zeta.
    rewrite Hget, Hcheck, Hisin.
    rewrite (financial_type_of_None _ Hout). reflexivity.
  - apply cache_get_frame in Hget
      as (Hcalls1 & Htrace1 & _ & _ & _).
    apply rate_limit_check_frame in Hcheck as (Hcalls2 & Htrace2 & Hcache2).
    apply execute_with_retry_frame in Hisin
      as (_ & _ & Hcache3 & _ & _ & (evs & Htrace3 & Hevs) & Hret).
    destruct (Hret _ eq_refl) as (i & Hi & _).
    split; [lia|]. split; [|congruence].
    exists evs. split; [congruence | exact Hevs].
Qed.

(** ** Replies *)

Lemma rate_limit_check_returns (ticker : string) (s : state data) :
  (0 < _GLOBAL_MAX_REQUESTS (cfg w))%Z ->
  exists r, fst (_rate_limit_check w ticker s) = Ret r.
Proof.
  intros Hmax. rewrite rate_limit_check_eq. cbv zeta.
  destruct (Z.of_nat _ >=? _)%Z eqn:Hfull.
  - destruct (prune_loop _ _) as [|oldest rest]; [|eexists; reflexivity].
    rewrite Z.geb_leb in Hfull. apply Z.leb_le in Hfull.
    simpl in Hfull. lia.
  - destruct (_last_ticker_request s !! ticker) as [last|];
      [destruct (Qlt_bool _ _)|]; eexists; reflexivity.
Qed.

(** With a window that admits at least one request no handler raises, and
    the only reply that is not a string is that of [get_recommendations]
    for a recommendation type that is neither of the two members. *)
Lemma handle_replies (c : tool_call) (s : state data) :
  (0 < _GLOBAL_MAX_REQUESTS (cfg w))%Z ->
  (exists text, fst (handle w c s) = Ret (Some text))
  \/ (fst (handle w c s) = Ret None
      /\ exists ticker recommendation_type months_back,
           c = GetRecommendations ticker recommendation_type months_back
           /\ recommendation_type
              <> RecommendationType_value recommendations
           /\ recommendation_type
              <> RecommendationType_value upgrades_downgrades).
Proof.
  intros Hmax.
  destruct (handle w c s) as [res s'] eqn:H. simpl.
  destruct c; unfold_handlers H; run_handler H.
  all: try discriminate.
  all: injection H as <- <-.
  all: try (left; eexists; reflexivity).
  all: try match goal with
       | E : _cache_get _ _ _ = (Raise _, _) |- _ =>
           apply cache_get_frame in E;
           destruct E as (_ & _ & _ & _ & [[? _] | (? & ? & ? & _)]);
           discriminate
       | E : _rate_limit_check _ ?t ?s0 = (Raise _, _) |- _ =>
           destruct (rate_limit_check_returns t s0 Hmax) as [r Hr];
           rewrite E in Hr; discriminate
       end.
  right. split; [reflexivity|].
  do 3 eexists. split; [reflexivity|].
  split; apply String.eqb_neq; assumption.
Qed.


(** * Further properties of the handlers and of the limiter *)

Lemma cache_get_ticks (k : list pyarg) (s : state data) :
  ticks (snd (_cache_get w k s)) = S (ticks s).
Proof.
  rewrite cache_get_eq.
  destruct (_cache s !! k) as [[e v]|]; [|reflexivity].
  destruct (Qle_bool e (clock w (ticks s))); reflexivity.
Qed.

Lemma rate_limit_check_ticks (ticker : string) (s : state data) :
  ticks (snd (_rate_limit_check w ticker s)) = S (ticks s).
Proof.
  rewrite rate_limit_check_eq. cbv zeta.
  destruct (Z.of_nat _ >=? _)%Z.
  - destruct (prune_loop _ _); reflexivity.
  - destruct (_last_ticker_request s !! ticker) as [last|];
      [destruct (Qlt_bool _ _)|]; reflexivity.
Qed.

(** A rejection always carries a computed wait. *)
Lemma rejection_message (ticker : string) (s s' : state data)
    (message : option string) :
  _rate_limit_check w ticker s = (Ret (true, message), s') ->
  exists retry_after, message = Some (rate_limited_message retry_after).
Proof.
  rewrite rate_limit_check_eq. cbv zeta.
  destruct (Z.of_nat _ >=? _)%Z.
  - destruct (prune_loop _ _); [discriminate|].
    intros [= <- _]. eexists. reflexivity.
  - destruct (_last_ticker_request s !! ticker) as [last|]; [|discriminate].
    destruct (Qlt_bool _ _); [|discriminate].
    intros [= <- _]. eexists. reflexivity.
Qed.

Lemma or_default_rate_limited (retry_after : Q) (default : string) :
  or_default (Some (rate_limited_message retry_after)) default
  = rate_limited_message retry_after.
Proof. reflexivity. Qed.

(** X1.  A call that misses the cache and is rejected by the rate-limit
    check returns the sentence with the computed wait (never the fallback
    sentence), makes no upstream call, logs nothing and stores nothing: its
    final state is the state the check left. *)
Theorem rate_limited_reply (c : tool_call) (s s1 s2 : state data)
    (message : option string) :
  _cache_get w (cache_key_of c) s = (Ret None, s1) ->
  _rate_limit_check w (ticker_of c) s1 = (Ret (true, message), s2) ->
  exists retry_after,
    message = Some (rate_limited_message retry_after)
    /\ handle w c s = (Ret (Some (rate_limited_message retry_after)), s2)
    /\ calls s2 = calls s
    /\ trace s2 = trace s
    /\ _cache s2 = _cache s1.
Proof.
  intros Hget Hcheck.
  destruct (rejection_message _ _ _ _ Hcheck) as [retry_after ->].
  exists retry_after. split; [reflexivity|]. split.
  - destruct c; simpl in Hget, Hcheck;
      unfold handle, some, get_historical_stock_prices, get_stock_info,
        get_yahoo_finance_news, get_stock_actions, get_financial_statement,
        get_holder_info, get_option_expiration_dates, get_option_chain,
        get_recommendations;
      lazy zeta; unfold bind at 1; try unfold bind at 1;
      rewrite Hget; cbv beta iota; unfold bind at 1;
      rewrite Hcheck; reflexivity.
  - apply cache_get_frame in Hget as (Hc1 & Ht1 & _).
    apply rate_limit_check_frame in Hcheck as (Hc2 & Ht2 & Hk2).
    repeat split; congruence.
Qed.

(** X2.  A call that misses the cache leaves both limiters exactly as its
    rate-limit check left them, whatever the provider answers afterwards:
    the quota an accepted call took is not given back when its fetch
    fails, and nothing else in a handler touches the limiters. *)
Theorem quota_is_spent_before_fetching (c : tool_call) (s : state data) :
  let s1 := snd (_cache_get w (cache_key_of c) s) in
  let s2 := snd (_rate_limit_check w (ticker_of c) s1) in
  let s' := snd (handle w c s) in
  fst (_cache_get w (cache_key_of c) s) = Ret None ->
  _global_request_timestamps s' = _global_request_timestamps s2
  /\ _last_ticker_request s' = _last_ticker_request s2.
Proof.
  intros s1 s2 s'. subst s1 s2 s'.
  destruct (handle w c s) as [res s'] eqn:H. cbn [snd].
  destruct c; cbn [cache_key_of ticker_of];
    unfold_handlers H; run_handler H.
  all: cbn [fst snd]; intros Hmiss; try discriminate.
  all: try (injection H as <- <-).
  all: rewrite_equations; cbn [snd].
  all: repeat match goal with
       | E : _execute_with_retry _ (fetch _ _) _ = _ |- _ =>
           apply execute_with_retry_frame in E;
           destruct E as (? & ? & _)
       end.
  all: cbn [_global_request_timestamps _last_ticker_request log set_cache
            tick].
  all: split; congruence.
Qed.


(** Unfold the handler of the goal down to its first step. *)
Ltac open_handler :=
  unfold handle, some, get_historical_stock_prices, get_stock_info,
    get_yahoo_finance_news, get_stock_actions, get_financial_statement,
    get_holder_info, get_option_expiration_dates, get_option_chain,
    get_recommendations;
  unfold bind, guarded; cbv zeta.

(** X3.  In every handler but [get_stock_actions], when the call misses the
    cache, passes the rate-limit check and the ISIN look-up returns [None],
    the reply is "Company ticker ... not found.", which is also printed;
    nothing has been stored in the cache and the only upstream calls made
    are ISIN look-ups. *)
Theorem unknown_ticker_reply (c : tool_call) (s s1 s2 s3 : state data)
    (message : option string) :
  (forall t, c <> GetStockActions t) ->
  _cache_get w (cache_key_of c) s = (Ret None, s1) ->
  _rate_limit_check w (ticker_of c) s1 = (Ret (false, message), s2) ->
  _execute_with_retry w (fetch w (Isin (ticker_of c))) s2 = (Ret None, s3) ->
  handle w c s
  = (Ret (Some (not_found_text (ticker_of c))),
     log (EvPrint (not_found_text (ticker_of c))) s3)
  /\ _cache s3 = _cache s1
  /\ exists evs,
       trace s3 = trace s ++ evs
       /\ Forall (fun e => e = EvFetch (Isin (ticker_of c))
                           \/ exists d, e = EvSleep d) evs.
Proof.
  intros Hother Hget Hcheck Hisin. split.
  - destruct c; simpl in Hget, Hcheck, Hisin;
      try (exfalso; eapply Hother; reflexivity);
      open_handler; rewrite Hget, Hcheck, Hisin; reflexivity.
  - apply cache_get_frame in Hget as (_ & Htrace1 & _).
    apply rate_limit_check_frame in Hcheck as (_ & Htrace2 & Hcache2).
    apply execute_with_retry_frame in Hisin
      as (_ & _ & Hcache3 & _ & _ & (evs & Htrace3 & Hevs) & _).
    split; [congruence|].
    exists evs. split; [congruence | exact Hevs].
Qed.

(** X4.  When the first fetcher of a handler fails (after the retries the
    executor allows), the handler does not raise: it returns, and prints,
    "Error: getting <subject> for <ticker>: <message of the exception>",
    and stores nothing. *)
Theorem fetch_failure_reply (c : tool_call) (s s1 s2 s3 : state data)
    (message : option string) (e : exn) :
  _cache_get w (cache_key_of c) s = (Ret None, s1) ->
  _rate_limit_check w (ticker_of c) s1 = (Ret (false, message), s2) ->
  first_fetch_raises w c s2 e s3 ->
  handle w c s
  = (Ret (Some (error_text (subject_of c) (ticker_of c) e)),
     log (EvPrint (error_text (subject_of c) (ticker_of c) e)) s3)
  /\ error_text (subject_of c) (ticker_of c) e
     = "Error: getting " +:+ subject_of c +:+ " for " +:+ ticker_of c
       +:+ ": " +:+ str e
  /\ _cache s3 = _cache s1.
Proof.
  intros Hget Hcheck Hfetch. split; [|split; [reflexivity|]].
  - destruct c; simpl in Hget, Hcheck, Hfetch;
      open_handler; rewrite Hget, Hcheck, Hfetch; reflexivity.
  - apply rate_limit_check_frame in Hcheck as (_ & _ & Hcache2).
    destruct c; simpl in Hfetch;
      apply execute_with_retry_frame in Hfetch as (_ & _ & Hcache3 & _);
      congruence.
Qed.

(** X5.  With a negative [_MAX_RETRIES] the loop of the executor has no
    iteration: the fetcher, whatever it is, is not called, and the executor
    raises the TypeError of [raise None], leaving the state as it was. *)
Theorem no_attempt_without_budget {A} (fetcher : M data A) (s : state data) :
  (_MAX_RETRIES (cfg w) < 0)%Z ->
  _execute_with_retry w fetcher s
  = (Raise (Exception "exceptions must derive from BaseException"), s).
Proof.
  intros Hneg. unfold _execute_with_retry.
  replace (Z.to_nat (_MAX_RETRIES (cfg w) + 1)) with 0%nat by lia.
  reflexivity.
Qed.

Lemma existsb_eqb_In (x : string) (xs : list string) :
  existsb (String.eqb x) xs = true <-> In x xs.
Proof.
  rewrite existsb_exists. split.
  - intros (y & Hy & Heq). apply String.eqb_eq in Heq. subst y. exact Hy.
  - intros Hx. exists x. split; [exact Hx | apply String.eqb_refl].
Qed.

Lemma existsb_eqb_not_In (x : string) (xs : list string) :
  existsb (String.eqb x) xs = false <-> ~ In x xs.
Proof.
  rewrite <- existsb_eqb_In. destruct (existsb _ xs); split; congruence.
Qed.

(** X6.  [get_option_chain], once the ISIN look-up and the fetch of the
    expiration dates have succeeded: an expiration date that is not among
    the dates is answered with the sentence pointing to
    [get_option_expiration_dates]; a listed date with an option type other
    than "calls" and "puts" is answered with "Error: Invalid option type.
    Please use 'calls' or 'puts'."; in both cases no option chain is
    fetched and nothing is stored, the final state being the one the fetch
    of the dates left. *)
Theorem option_chain_validation (ticker expiration_date option_type : string)
    (s s1 s2 s3 s4 : state data) (message : option string) (isin : string)
    (options : list string) :
  _cache_get w [AStr "get_option_chain"; AStr ticker; AStr expiration_date;
                AStr option_type] s = (Ret None, s1) ->
  _rate_limit_check w ticker s1 = (Ret (false, message), s2) ->
  _execute_with_retry w (fetch w (Isin ticker)) s2 = (Ret (Some isin), s3) ->
  _execute_with_retry w (fetch w (Options ticker)) s3 = (Ret options, s4) ->
  (~ In expiration_date options ->
     get_option_chain w ticker expiration_date option_type s
     = (Ret (no_options_text expiration_date), s4))
  /\ (In expiration_date options ->
      option_type <> "calls" -> option_type <> "puts" ->
      get_option_chain w ticker expiration_date option_type s
      = (Ret invalid_option_type_text, s4))
  /\ _cache s4 = _cache s1
  /\ exists evs,
       trace s4 = trace s ++ evs
       /\ Forall (fun e => e = EvFetch (Isin ticker)
                           \/ e = EvFetch (Options ticker)
                           \/ exists d, e = EvSleep d) evs.
Proof.
  intros Hget Hcheck Hisin Hopts.
  split; [|split].
  - intros Hout. apply existsb_eqb_not_In in Hout.
    unfold get_option_chain, bind, guarded. cbv zeta.
    rewrite Hget, Hcheck, Hisin, Hopts. cbv beta iota.
    rewrite Hout. reflexivity.
  - intros Hin Hcalls Hputs. apply existsb_eqb_In in Hin.
    apply String.eqb_neq in Hcalls, Hputs.
    unfold get_option_chain, bind, guarded. cbv zeta.
    rewrite Hget, Hcheck, Hisin, Hopts. cbv beta iota.
    rewrite Hin. cbn [negb existsb]. rewrite Hcalls, Hputs. reflexivity.
  - apply cache_get_frame in Hget as (_ & Htrace1 & _).
    apply rate_limit_check_frame in Hcheck as (_ & Htrace2 & Hcache2).
    apply execute_with_retry_frame in Hisin
      as (_ & _ & Hcache3 & _ & _ & (evs3 & Htrace3 & Hevs3) & _).
    apply execute_with_retry_frame in Hopts
      as (_ & _ & Hcache4 & _ & _ & (evs4 & Htrace4 & Hevs4) & _).
    split; [congruence|].
    exists (evs3 ++ evs4). split.
    + rewrite Htrace4, Htrace3, Htrace2, Htrace1, app_assoc. reflexivity.
    + apply Forall_app. split.
      * eapply Forall_impl; [exact Hevs3|]. intros e [He | He]; auto.
      * eapply Forall_impl; [exact Hevs4|]. intros e [He | He]; auto.
Qed.

(** X7.  [get_option_chain] on a listed date: for "calls" it returns and
    caches the JSON of the calls table of the fetched chain, for "puts"
    that of the puts table. *)
Theorem option_chain_side (ticker expiration_date option_type : string)
    (s s1 s2 s3 s4 s5 : state data) (message : option string) (isin : string)
    (options : list string) (calls_df puts_df : data) :
  let key := [AStr "get_option_chain"; AStr ticker; AStr expiration_date;
              AStr option_type] in
  _cache_get w key s = (Ret None, s1) ->
  _rate_limit_check w ticker s1 = (Ret (false, message), s2) ->
  _execute_with_retry w (fetch w (Isin ticker)) s2 = (Ret (Some isin), s3) ->
  _execute_with_retry w (fetch w (Options ticker)) s3 = (Ret options, s4) ->
  In expiration_date options ->
  _execute_with_retry w (fetch w (OptionChain ticker expiration_date)) s4
  = (Ret (calls_df, puts_df), s5) ->
  (option_type = "calls" ->
     get_option_chain w ticker expiration_date option_type s
     = (Ret (to_json_iso w calls_df),
        snd (_cache_set w key (to_json_iso w calls_df) s5)))
  /\ (option_type = "puts" ->
      get_option_chain w ticker expiration_date option_type s
      = (Ret (to_json_iso w puts_df),
         snd (_cache_set w key (to_json_iso w puts_df) s5))).
Proof.
  intros key Hget Hcheck Hisin Hopts Hin Hchain.
  apply existsb_eqb_In in Hin.
  split; intros ->; unfold get_option_chain, bind, guarded; cbv zeta;
    fold key; rewrite Hget, Hcheck, Hisin, Hopts; cbv beta iota;
    rewrite Hin; cbn [negb].
  - change (existsb (String.eqb "calls") ["calls"; "puts"]) with true.
    cbn [negb]. rewrite Hchain. reflexivity.
  - change (existsb (String.eqb "puts") ["calls"; "puts"]) with true.
    cbn [negb]. rewrite Hchain. reflexivity.
Qed.

Lemma holder_type_of_None (holder_type : string) :
  (forall t, holder_type <> HolderType_value t) ->
  holder_type_of holder_type = None.
Proof.
  intros Hout. unfold holder_type_of.
  repeat match goal with
  | |- context [String.eqb holder_type (HolderType_value ?t)] =>
      destruct (String.eqb_spec holder_type (HolderType_value t))
        as [Heq | _]; [exfalso; exact (Hout t Heq)|]
  end.
  reflexivity.
Qed.

Lemma holder_type_of_value (t : HolderType) :
  holder_type_of (HolderType_value t) = Some t.
Proof. destruct t; reflexivity. Qed.

(** X8.  [get_holder_info]: for a holder type outside the six values, once
    the ISIN look-up has succeeded, the reply is the invalid-type sentence
    listing the six members, with nothing fetched beyond the ISIN and
    nothing stored; for each of the six values the handler runs the fetcher
    of that holder table and, when it succeeds, returns and caches its
    JSON. *)
Theorem holder_info_by_type (ticker holder_type : string)
    (s s1 s2 s3 : state data) (message : option string) (isin : string) :
  let key := [AStr "get_holder_info"; AStr ticker; AStr holder_type] in
  _cache_get w key s = (Ret None, s1) ->
  _rate_limit_check w ticker s1 = (Ret (false, message), s2) ->
  _execute_with_retry w (fetch w (Isin ticker)) s2 = (Ret (Some isin), s3) ->
  ((forall t, holder_type <> HolderType_value t) ->
     get_holder_info w ticker holder_type s
     = (Ret (invalid_holder_type_text w holder_type), s3))
  /\ (forall t result s4,
        holder_type = HolderType_value t ->
        _execute_with_retry w (fetch w (Holders ticker t)) s3
        = (Ret result, s4) ->
        get_holder_info w ticker holder_type s
        = (Ret result, snd (_cache_set w key result s4))).
Proof.
  intros key Hget Hcheck Hisin. split.
  - intros Hout. unfold get_holder_info, bind, guarded. cbv zeta.
    fold key. rewrite Hget, Hcheck, Hisin.
    rewrite (holder_type_of_None _ Hout). reflexivity.
  - intros t result s4 -> Hfetch.
    unfold get_holder_info, bind, guarded. cbv zeta.
    fold key. rewrite Hget, Hcheck, Hisin.
    rewrite holder_type_of_value, Hfetch. reflexivity.
Qed.

(** X9.  [get_yahoo_finance_news], once the ISIN look-up and the fetch of
    the news have succeeded: only the items whose content type is "STORY"
    are rendered; with no such item the reply is the "No news found"
    sentence, printed and not cached; otherwise the reply is the rendered
    stories joined by a blank line, and it is cached. *)
Theorem news_stories_only (ticker : string) (s s1 s2 s3 s4 : state data)
    (message : option string) (isin : string) (news : list news_item) :
  let key := [AStr "get_yahoo_finance_news"; AStr ticker] in
  let stories :=
    map news_text (filter (fun n => contentType n = "STORY") news) in
  _cache_get w key s = (Ret None, s1) ->
  _rate_limit_check w ticker s1 = (Ret (false, message), s2) ->
  _execute_with_retry w (fetch w (Isin ticker)) s2 = (Ret (Some isin), s3) ->
  _execute_with_retry w (fetch w (News ticker)) s3 = (Ret news, s4) ->
  (stories = [] ->
     get_yahoo_finance_news w ticker s
     = (Ret (no_news_text ticker), log (EvPrint (no_news_text ticker)) s4))
  /\ (stories <> [] ->
      get_yahoo_finance_news w ticker s
      = (Ret (join (newline +:+ newline) stories),
         snd (_cache_set w key (join (newline +:+ newline) stories) s4)))
  /\ length stories
     = length (filter (fun n => contentType n = "STORY") news).
Proof.
  intros key stories Hget Hcheck Hisin Hnews.
  split; [|split].
  - intros Hnone. unfold get_yahoo_finance_news, bind, guarded. cbv zeta.
    fold key. rewrite Hget, Hcheck, Hisin, Hnews. cbv beta iota.
    fold stories. rewrite Hnone. reflexivity.
  - intros Hsome. unfold get_yahoo_finance_news, bind, guarded. cbv zeta.
    fold key. rewrite Hget, Hcheck, Hisin, Hnews. cbv beta iota.
    fold stories. destruct stories as [|story rest]; [congruence|].
    reflexivity.
  - subst stories. apply length_map.
Qed.


(** ** Invariants of the limiters along a run *)

Lemma cache_hit_step (c : tool_call) (s : state data)
    (expires_at : Q) (value : string) :
  _cache s !! cache_key_of c = Some (expires_at, value) ->
  Qle_bool expires_at (clock w (ticks s)) = false ->
  handle w c s = (Ret (Some value), tick s).
Proof.
  intros Hlook Hfresh.
  destruct c; cbn [cache_key_of] in Hlook; open_handler;
    rewrite cache_get_eq, Hlook, Hfresh; reflexivity.
Qed.

Lemma handle_hit_or_miss (c : tool_call) (s : state data) :
  (exists v, handle w c s = (Ret (Some v), tick s))
  \/ fst (_cache_get w (cache_key_of c) s) = Ret None.
Proof.
  destruct (_cache s !! cache_key_of c) as [[e v]|] eqn:Hlook.
  - destruct (Qle_bool e (clock w (ticks s))) eqn:Hexp.
    + right. rewrite cache_get_eq, Hlook, Hexp. reflexivity.
    + left. exists v. exact (cache_hit_step c s e v Hlook Hexp).
  - right. rewrite cache_get_eq, Hlook. reflexivity.
Qed.

Lemma handle_after_check (c : tool_call) (s : state data) :
  let s1 := snd (_cache_get w (cache_key_of c) s) in
  let s2 := snd (_rate_limit_check w (ticker_of c) s1) in
  let s' := snd (handle w c s) in
  fst (_cache_get w (cache_key_of c) s) = Ret None ->
  _global_request_timestamps s' = _global_request_timestamps s2
  /\ _last_ticker_request s' = _last_ticker_request s2
  /\ (ticks s2 <= ticks s')%nat.
Proof.
  intros s1 s2 s'. subst s1 s2 s'.
  destruct (handle w c s) as [res s'] eqn:H. cbn [snd].
  destruct c; cbn [cache_key_of ticker_of];
    unfold_handlers H; run_handler H.
  all: cbn [fst snd]; intros Hmiss; try discriminate.
  all: try (injection H as <- <-).
  all: rewrite_equations; cbn [snd].
  all: repeat match goal with
       | E : _execute_with_retry _ (fetch _ _) _ = _ |- _ =>
           apply execute_with_retry_frame in E;
           destruct E as (? & ? & _ & ? & _)
       end.
  all: cbn [_global_request_timestamps _last_ticker_request ticks log
            set_cache tick].
  all: repeat split; try congruence; lia.
Qed.

(** A property of the limiters and the clock position that survives later
    readings of the clock and every rate-limit check survives every
    handler. *)
Lemma handle_keeps_limiter_invariant
    (P : list Q -> gmap string Q -> nat -> Prop) :
  (forall g l n m, P g l n -> (n <= m)%nat -> P g l m) ->
  (forall ticker s,
      P (_global_request_timestamps s) (_last_ticker_request s) (ticks s) ->
      let s2 := snd (_rate_limit_check w ticker s) in
      P (_global_request_timestamps s2) (_last_ticker_request s2) (ticks s2)) ->
  forall c s,
    P (_global_request_timestamps s) (_last_ticker_request s) (ticks s) ->
    let s' := snd (handle w c s) in
    P (_global_request_timestamps s') (_last_ticker_request s') (ticks s').
Proof.
  intros Hlater Hcheck c s HP s'. subst s'.
  destruct (handle_hit_or_miss c s) as [[v Hhit] | Hmiss].
  - rewrite Hhit. simpl. eapply Hlater; [exact HP | lia].
  - destruct (handle_after_check c s Hmiss) as (Hg & Hl & Ht).
    rewrite Hg, Hl. eapply Hlater; [|exact Ht].
    apply Hcheck.
    destruct (_cache_get w (cache_key_of c) s) as [r s1] eqn:Hget.
    pose proof (cache_get_ticks (cache_key_of c) s) as Hticks.
    rewrite Hget in Hticks. simpl in Hticks.
    apply cache_get_frame in Hget as (_ & _ & Hg1 & Hl1 & _).
    simpl. rewrite Hg1, Hl1, Hticks. eapply Hlater; [exact HP | lia].
Qed.

Lemma reachable_limiter_invariant
    (P : list Q -> gmap string Q -> nat -> Prop) :
  P [] ∅ 0%nat ->
  (forall g l n m, P g l n -> (n <= m)%nat -> P g l m) ->
  (forall ticker s,
      P (_global_request_timestamps s) (_last_ticker_request s) (ticks s) ->
      let s2 := snd (_rate_limit_check w ticker s) in
      P (_global_request_timestamps s2) (_last_ticker_request s2) (ticks s2)) ->
  forall cs,
    let s := state_after w cs in
    P (_global_request_timestamps s) (_last_ticker_request s) (ticks s).
Proof.
  intros Hinit Hlater Hcheck cs.
  induction cs as [|c cs IH] using rev_ind; [exact Hinit|].
  rewrite state_after_snoc.
  apply (handle_keeps_limiter_invariant P Hlater Hcheck). exact IH.
Qed.

Lemma prune_loop_length (cutoff : Q) (ts : list Q) :
  (length (prune_loop cutoff ts) <= length ts)%nat.
Proof.
  destruct (prune_loop_suffix cutoff ts) as (expired & Heq & _).
  rewrite Heq at 2. rewrite length_app. lia.
Qed.


(** X10.  With a non-negative [_GLOBAL_MAX_REQUESTS], the global list never
    holds more than that many timestamps, in any state reached by running
    tool calls from a fresh process. *)
Theorem window_never_overfull (cs : list tool_call) :
  (0 <= _GLOBAL_MAX_REQUESTS (cfg w))%Z ->
  (Z.of_nat (length (_global_request_timestamps (state_after w cs)))
   <= _GLOBAL_MAX_REQUESTS (cfg w))%Z.
Proof.
  intros Hmax.
  apply (reachable_limiter_invariant
           (fun g _ _ => (Z.of_nat (length g)
                          <= _GLOBAL_MAX_REQUESTS (cfg w))%Z)).
  - simpl. lia.
  - intros g l n m Hg _. exact Hg.
  - intros ticker s Hs s2. subst s2.
    rewrite rate_limit_check_eq. cbv zeta.
    pose proof (prune_loop_length
                  (clock w (ticks s) - _GLOBAL_WINDOW_SECONDS (cfg w))%Q
                  (_global_request_timestamps s)) as Hlen.
    destruct (Z.of_nat _ >=? _)%Z eqn:Hfull.
    + destruct (prune_loop _ _) eqn:Hkept; simpl; simpl in Hlen; lia.
    + rewrite Z.geb_leb in Hfull. apply Z.leb_gt in Hfull.
      destruct (_last_ticker_request s !! ticker) as [last|];
        [destruct (Qlt_bool _ _)|]; simpl;
        rewrite ?length_app; simpl; lia.
Qed.

Lemma rate_limit_check_none_in_future (ticker : string) (s : state data) :
  monotonic_clock w ->
  none_in_future w s ->
  none_in_future w (snd (_rate_limit_check w ticker s)).
Proof.
  intros Hmono [Hlist Hmap].
  pose proof (Hmono (ticks s) (S (ticks s)) (Nat.le_succ_diag_r _)) as Hstep.
  set (cutoff := (clock w (ticks s) - _GLOBAL_WINDOW_SECONDS (cfg w))%Q).
  assert (Hlater : Forall (fun t => (t <= clock w (S (ticks s)))%Q)
                          (prune_loop cutoff (_global_request_timestamps s))).
  { apply prune_loop_Forall. eapply Forall_impl; [exact Hlist|].
    intros t Ht. simpl in Ht. eapply Qle_trans; eassumption. }
  assert (Hmap' : forall t last,
             _last_ticker_request s !! t = Some last ->
             (last <= clock w (S (ticks s)))%Q).
  { intros t last Hlast. eapply Qle_trans; [eapply Hmap; exact Hlast|].
    exact Hstep. }
  assert (Hkept : none_in_future w
                    (set_timestamps
                       (prune_loop cutoff (_global_request_timestamps s))
                       (tick s))).
  { split; [exact Hlater | exact Hmap']. }
  assert (Hrecorded : none_in_future w
            (set_last (<[ticker := clock w (ticks s)]> (_last_ticker_request s))
               (set_timestamps
                  (prune_loop cutoff (_global_request_timestamps s)
                   ++ [clock w (ticks s)])
                  (set_timestamps
                     (prune_loop cutoff (_global_request_timestamps s))
                     (tick s))))).
  { split; simpl.
    - apply Forall_app. split; [exact Hlater|].
      repeat constructor. exact Hstep.
    - intros t last Hlast.
      destruct (decide (ticker = t)) as [-> | Hne].
      + rewrite lookup_insert_eq in Hlast. injection Hlast as <-. exact Hstep.
      + rewrite lookup_insert_ne in Hlast by exact Hne.
        eapply Hmap'. exact Hlast. }
  rewrite rate_limit_check_eq. fold cutoff.
  destruct (Z.of_nat _ >=? _)%Z.
  - destruct (prune_loop cutoff (_global_request_timestamps s)); exact Hkept.
  - destruct (_last_ticker_request s !! ticker) as [last|];
      [|exact Hrecorded].
    destruct (Qlt_bool _ _); [exact Hkept | exact Hrecorded].
Qed.

Lemma reachable_limiter_facts (cs : list tool_call) :
  monotonic_clock w ->
  let s := state_after w cs in
  Sorted Qle (_global_request_timestamps s)
  /\ Forall (fun t => (t <= clock w (ticks s))%Q) (_global_request_timestamps s)
  /\ forall ticker last,
       _last_ticker_request s !! ticker = Some last ->
       (last <= clock w (ticks s))%Q.
Proof.
  intros Hmono.
  apply (reachable_limiter_invariant
           (fun (g : list Q) (l : gmap string Q) (n : nat) =>
              Sorted Qle g
              /\ Forall (fun t => (t <= clock w n)%Q) g
              /\ forall ticker last,
                   l !! ticker = Some last -> (last <= clock w n)%Q)).
  - split; [constructor|]. split; [constructor|].
    intros ticker last Hlast. rewrite lookup_empty in Hlast. discriminate.
  - intros g l n m (Hsorted & Hlist & Hmap) Hnm.
    pose proof (Hmono n m Hnm) as Hle.
    split; [exact Hsorted|]. split.
    + eapply Forall_impl; [exact Hlist|]. intros t Ht. simpl in Ht.
      eapply Qle_trans; eassumption.
    + intros ticker last Hlast.
      eapply Qle_trans; [eapply Hmap; exact Hlast | exact Hle].
  - intros ticker s (Hsorted & Hlist & Hmap) s2.
    destruct (rate_limit_check_in_order ticker s Hmono (conj Hsorted Hlist))
      as [Hsorted2 Hlist2].
    destruct (rate_limit_check_none_in_future ticker s Hmono
                (conj Hlist Hmap)) as [_ Hmap2].
    split; [exact Hsorted2|]. split; [exact Hlist2 | exact Hmap2].
Qed.

(** X11.  Under a clock that never runs backwards, every state reached by
    running tool calls from a fresh process has its global list in
    non-decreasing order, and no time recorded in the list or in the
    per-ticker map lies after the next reading of the clock. *)
Theorem reachable_timestamps_in_order (cs : list tool_call) :
  monotonic_clock w ->
  timestamps_in_order w (state_after w cs)
  /\ none_in_future w (state_after w cs).
Proof.
  intros Hmono.
  destruct (reachable_limiter_facts cs Hmono) as (Hsorted & Hlist & Hmap).
  split; split; assumption.
Qed.

(** X12.  On a list in recording order with nothing in the future, and a
    non-negative window, every timestamp left in the global list by a
    rate-limit check lies in [[now - window, now]]. *)
Theorem timestamps_within_window (ticker : string) (s : state data) :
  timestamps_in_order w s ->
  (0 <= _GLOBAL_WINDOW_SECONDS (cfg w))%Q ->
  let now := clock w (ticks s) in
  Forall (fun t => (now - _GLOBAL_WINDOW_SECONDS (cfg w) <= t)%Q
                   /\ (t <= now)%Q)
         (_global_request_timestamps (snd (_rate_limit_check w ticker s))).
Proof.
  intros [Hsorted Hle] Hwindow now.
  apply sorted_strongly in Hsorted.
  set (cutoff := (now - _GLOBAL_WINDOW_SECONDS (cfg w))%Q).
  assert (Hkept : Forall (fun t => (cutoff <= t)%Q /\ (t <= now)%Q)
                    (prune_loop cutoff (_global_request_timestamps s))).
  { rewrite (prune_loop_filter _ _ Hsorted).
    apply List.Forall_forall. intros t Ht.
    apply List.filter_In in Ht as [Hin Hfresh].
    split; [apply Qle_bool_iff; exact Hfresh|].
    rewrite List.Forall_forall in Hle. apply Hle. exact Hin. }
  assert (Hnow : Forall (fun t => (cutoff <= t)%Q /\ (t <= now)%Q)
                   (prune_loop cutoff (_global_request_timestamps s)
                    ++ [now])).
  { apply Forall_app. split; [exact Hkept|].
    repeat constructor; [unfold cutoff; lra | apply Qle_refl]. }
  rewrite rate_limit_check_eq. fold now cutoff.
  destruct (Z.of_nat _ >=? _)%Z.
  - destruct (prune_loop cutoff (_global_request_timestamps s));
      exact Hkept.
  - destruct (_last_ticker_request s !! ticker) as [last|];
      [|exact Hnow].
    destruct (Qlt_bool _ _); [exact Hkept | exact Hnow].
Qed.



(** ** A non-positive request budget *)

Lemma starved_call (c : tool_call) (s : state data) :
  (_GLOBAL_MAX_REQUESTS (cfg w) <= 0)%Z ->
  _global_request_timestamps s = [] ->
  _cache s = ∅ ->
  handle w c s
  = (Raise (Exception "list index out of range"),
     set_timestamps [] (tick (tick s))).
Proof.
  intros Hmax Hlist Hcache.
  assert (Hget : _cache_get w (cache_key_of c) s = (Ret None, tick s))
    by (rewrite cache_get_eq, Hcache, lookup_empty; reflexivity).
  assert (Hcheck : _rate_limit_check w (ticker_of c) (tick s)
                   = (Raise (Exception "list index out of range"),
                      set_timestamps [] (tick (tick s)))).
  { rewrite rate_limit_check_eq. cbv zeta.
    cbn [_global_request_timestamps tick]. rewrite Hlist.
    cbn [prune_loop length].
    replace (Z.of_nat 0 >=? _GLOBAL_MAX_REQUESTS (cfg w))%Z with true
      by (symmetry; rewrite Z.geb_leb; apply Z.leb_le; simpl; lia).
    reflexivity. }
  destruct c; simpl in Hget, Hcheck; open_handler;
    rewrite Hget, Hcheck; reflexivity.
Qed.

(** X14.  With [_GLOBAL_MAX_REQUESTS <= 0] no tool call is ever answered
    with the rate-limit sentence: from a fresh process on, every call of
    every tool raises IndexError ("list index out of range", from
    [_global_request_timestamps[0]] on the empty list), without any
    upstream call. *)
Theorem nonpositive_budget_faults (cs : list tool_call) (c : tool_call) :
  (_GLOBAL_MAX_REQUESTS (cfg w) <= 0)%Z ->
  fst (handle w c (state_after w cs))
  = Raise (Exception "list index out of range")
  /\ calls (snd (handle w c (state_after w cs))) = 0%nat.
Proof.
  intros Hmax.
  assert (Hinv : _global_request_timestamps (state_after w cs) = []
                 /\ _cache (state_after w cs) = ∅
                 /\ calls (state_after w cs) = 0%nat).
  { induction cs as [|c' cs IH] using rev_ind.
    - repeat split.
    - destruct IH as (Hlist & Hcache & Hcalls).
      rewrite state_after_snoc, (starved_call c' _ Hmax Hlist Hcache).
      simpl. repeat split; assumption. }
  destruct Hinv as (Hlist & Hcache & Hcalls).
  rewrite (starved_call c _ Hmax Hlist Hcache). simpl.
  split; [reflexivity | exact Hcalls].
Qed.

(** ** Cache entries of other operations, and repeated calls *)

(** X15.  Two tool calls build the same cache key only when they are the
    same tool with the same arguments, and a call never changes what the
    cache holds under any key but its own. *)
Theorem cache_entries_are_isolated (c : tool_call) (s : state data) :
  (forall c', cache_key_of c' = cache_key_of c -> c' = c)
  /\ forall k,
       k <> cache_key_of c ->
       _cache (snd (handle w c s)) !! k = _cache s !! k.
Proof.
  split; [intros c'; apply cache_key_of_inj|].
  intros k Hne.
  destruct (handle w c s) as [res s'] eqn:Hrun. simpl.
  destruct (handle_cache_step c s s' res Hrun)
    as [-> | [-> | (v & e & n & _ & _ & _ & ->)]].
  - reflexivity.
  - apply lookup_delete_ne. congruence.
  - apply lookup_insert_ne. congruence.
Qed.



(** ** Age of cache entries *)

Ltac tick_facts :=
  repeat match goal with
  | E : _cache_get ?w0 ?k ?s0 = (_, ?s1) |- _ =>
      lazymatch goal with
      | _ : ticks s1 = S (ticks s0) |- _ => fail
      | _ => idtac
      end;
      let T := fresh "Hticks" in
      pose proof (cache_get_ticks k s0) as T; rewrite E in T; cbn [snd] in T
  | E : _rate_limit_check ?w0 ?t ?s0 = (_, ?s1) |- _ =>
      lazymatch goal with
      | _ : ticks s1 = S (ticks s0) |- _ => fail
      | _ => idtac
      end;
      let T := fresh "Hticks" in
      pose proof (rate_limit_check_ticks t s0) as T; rewrite E in T;
      cbn [snd] in T
  end.

Lemma handle_cache_step_expiry (c : tool_call) (s s' : state data)
    (res : outcome (option string)) :
  handle w c s = (res, s') ->
  (ticks s <= ticks s')%nat
  /\ (_cache s' = _cache s
      \/ _cache s' = delete (cache_key_of c) (_cache s)
      \/ exists v n,
           (ticks s <= n < ticks s')%nat
           /\ _cache s'
              = <[cache_key_of c
                  := ((clock w n + _CACHE_TTL_SECONDS (cfg w))%Q, v)]>
                  (_cache s)).
Proof.
  intros H. destruct c; unfold_handlers H; run_handler H.
  all: try discriminate.
  all: injection H as <- <-.
  all: tick_facts; frame_facts; try discriminate.
  all: cbn [_cache ticks log set_cache tick cache_key_of].
  all: split; [lia|].
  all: first
    [ left; congruence
    | right; left; congruence
    | right; right;
      match goal with
      | |- exists v n, _ /\ <[?k := (clock _ (ticks ?s4) + _, ?x)%Q]> _ = _ =>
          exists x, (ticks s4); split; [lia|];
          transitivity
            (<[k := ((clock w (ticks s4) + _CACHE_TTL_SECONDS (cfg w))%Q, x)]>
               (delete k (_cache s)));
          [ f_equal; congruence | apply insert_delete_eq ]
      end ].
Qed.

(** X17.  In every state reached from a fresh process, each cache entry
    expires at [clock n + ttl] for a clock reading [n] already made, the one
    at which it was stored.  Hence, under a clock that never runs
    backwards, a handler serves a cached value only while less than [ttl]
    has passed since it was stored, and with [_CACHE_TTL_SECONDS <= 0]
    no call is ever served from the cache. *)
Theorem cache_entries_expire_on_time (cs : list tool_call) :
  let s := state_after w cs in
  let ttl := _CACHE_TTL_SECONDS (cfg w) in
  (forall k e v,
      _cache s !! k = Some (e, v) ->
      exists n, (n < ticks s)%nat /\ e = (clock w n + ttl)%Q)
  /\ (monotonic_clock w ->
      forall k v,
        fst (_cache_get w k s) = Ret (Some v) ->
        exists n, (n < ticks s)%nat
                  /\ (clock w n <= clock w (ticks s) < clock w n + ttl)%Q)
  /\ (monotonic_clock w -> (ttl <= 0)%Q ->
      forall k, fst (_cache_get w k s) = Ret None).
Proof.
  intros s ttl.
  assert (Hstored : forall k e v,
             _cache s !! k = Some (e, v) ->
             exists n, (n < ticks s)%nat /\ e = (clock w n + ttl)%Q).
  { subst s. induction cs as [|c cs IH] using rev_ind.
    - intros k e v Hlook. unfold state_after in Hlook. simpl in Hlook.
      rewrite lookup_empty in Hlook. discriminate.
    - rewrite state_after_snoc.
      destruct (handle w c (state_after w cs)) as [res s'] eqn:Hrun.
      cbn [snd].
      destruct (handle_cache_step_expiry c _ s' res Hrun)
        as (Hticks & [Hsame | [Hdel | (v0 & n0 & Hn0 & Hins)]]);
        intros k e v Hlook.
      + rewrite Hsame in Hlook.
        destruct (IH _ _ _ Hlook) as (n & Hn & He).
        exists n. split; [lia | exact He].
      + rewrite Hdel in Hlook.
        apply lookup_delete_Some in Hlook as [_ Hlook].
        destruct (IH _ _ _ Hlook) as (n & Hn & He).
        exists n. split; [lia | exact He].
      + rewrite Hins in Hlook.
        destruct (decide (cache_key_of c = k)) as [<- | Hne].
        * rewrite lookup_insert_eq in Hlook. injection Hlook as <- <-.
          exists n0. split; [lia | reflexivity].
        * rewrite lookup_insert_ne in Hlook by exact Hne.
          destruct (IH _ _ _ Hlook) as (n & Hn & He).
          exists n. split; [lia | exact He]. }
  split; [exact Hstored|]. split.
  - intros Hmono k v. rewrite cache_get_eq.
    destruct (_cache s !! k) as [[e v0]|] eqn:Hlook; [|discriminate].
    destruct (Qle_bool e (clock w (ticks s))) eqn:Hexp; [discriminate|].
    intros _. destruct (Hstored _ _ _ Hlook) as (n & Hn & He).
    exists n. split; [exact Hn|]. split.
    + apply Hmono. lia.
    + apply Qle_bool_false_iff in Hexp. rewrite <- He. exact Hexp.
  - intros Hmono Httl k. rewrite cache_get_eq.
    destruct (_cache s !! k) as [[e v0]|] eqn:Hlook; [|reflexivity].
    destruct (Hstored _ _ _ Hlook) as (n & Hn & He).
    assert (Hexp : Qle_bool e (clock w (ticks s)) = true).
    { apply Qle_bool_iff. rewrite He.
      pose proof (Hmono n (ticks s)) as Hle.
      assert (Hnle : (n <= ticks s)%nat) by lia.
      specialize (Hle Hnle). unfold ttl in *. lra. }
    rewrite Hexp. reflexivity.
Qed.

(** ** The remaining branches on an argument *)

Lemma financial_type_of_value (t : FinancialType) :
  financial_type_of (FinancialType_value t) = Some t.
Proof. destruct t; reflexivity. Qed.

(** X18.  [get_financial_statement] with one of the six statement types,
    once the ISIN look-up has succeeded, runs the fetcher of exactly that
    statement and, when it succeeds, returns and caches the JSON built from
    it; when it fails, the reply is the error sentence and nothing is
    cached. *)
Theorem financial_statement_by_type (ticker : string) (t : FinancialType)
    (s s1 s2 s3 s4 : state data) (message : option string) (isin : string) :
  let key := [AStr "get_financial_statement"; AStr ticker;
              AStr (FinancialType_value t)] in
  _cache_get w key s = (Ret None, s1) ->
  _rate_limit_check w ticker s1 = (Ret (false, message), s2) ->
  _execute_with_retry w (fetch w (Isin ticker)) s2 = (Ret (Some isin), s3) ->
  (forall statement,
      _execute_with_retry w (fetch w (Statement ticker t)) s3
      = (Ret statement, s4) ->
      get_financial_statement w ticker (FinancialType_value t) s
      = (Ret (statement_json w statement),
         snd (_cache_set w key (statement_json w statement) s4)))
  /\ (forall e,
        _execute_with_retry w (fetch w (Statement ticker t)) s3
        = (Raise e, s4) ->
        get_financial_statement w ticker (FinancialType_value t) s
        = (Ret (error_text "financial statement" ticker e),
           log (EvPrint (error_text "financial statement" ticker e)) s4)
        /\ _cache s4 = _cache s1).
Proof.
  intros key Hget Hcheck Hisin. split.
  - intros statement Hfetch.
    unfold get_financial_statement, bind, guarded. cbv zeta. fold key.
    rewrite Hget, Hcheck, Hisin, financial_type_of_value, Hfetch.
    reflexivity.
  - intros e Hfetch. split.
    + unfold get_financial_statement, bind, guarded. cbv zeta. fold key.
      rewrite Hget, Hcheck, Hisin, financial_type_of_value, Hfetch.
      reflexivity.
    + apply rate_limit_check_frame in Hcheck as (_ & _ & Hc2).
      apply execute_with_retry_frame in Hisin as (_ & _ & Hc3 & _).
      apply execute_with_retry_frame in Hfetch as (_ & _ & Hc4 & _).
      congruence.
Qed.

(** X19.  [get_recommendations], once the ISIN look-up has succeeded:
    for "recommendations" it returns and caches what the fetcher of the
    recommendations returned; for "upgrades_downgrades" it returns and
    caches the JSON of the latest grade per firm, and a failure while
    computing that JSON is answered with the error sentence and not
    cached; for any other recommendation type it returns [None], having
    fetched nothing more and stored nothing. *)
Theorem recommendations_by_type (ticker recommendation_type : string)
    (months_back : Z) (s s1 s2 s3 : state data) (message : option string)
    (isin : string) :
  let key := [AStr "get_recommendations"; AStr ticker;
              AStr recommendation_type; AInt months_back] in
  let run := get_recommendations w ticker recommendation_type months_back s in
  _cache_get w key s = (Ret None, s1) ->
  _rate_limit_check w ticker s1 = (Ret (false, message), s2) ->
  _execute_with_retry w (fetch w (Isin ticker)) s2 = (Ret (Some isin), s3) ->
  (recommendation_type = "recommendations" ->
     forall result s4,
       _execute_with_retry w (fetch w (Recommendations ticker)) s3
       = (Ret result, s4) ->
       run = (Ret (Some result), snd (_cache_set w key result s4)))
  /\ (recommendation_type = "upgrades_downgrades" ->
      forall upgrades s4,
        _execute_with_retry w (fetch w (UpgradesDowngrades ticker)) s3
        = (Ret upgrades, s4) ->
        (forall result,
            latest_by_firm_json w upgrades months_back = Ok result ->
            run = (Ret (Some result), snd (_cache_set w key result s4)))
        /\ (forall e,
              latest_by_firm_json w upgrades months_back = Fail e ->
              run = (Ret (Some (error_text "recommendations" ticker e)),
                     log (EvPrint (error_text "recommendations" ticker e))
                         s4)))
  /\ (recommendation_type <> "recommendations" ->
      recommendation_type <> "upgrades_downgrades" ->
      run = (Ret None, s3)).
Proof.
  intros key run Hget Hcheck Hisin. subst run.
  split; [|split].
  - intros -> result s4 Hfetch.
    unfold get_recommendations, bind, guarded. cbv zeta. fold key.
    rewrite Hget, Hcheck, Hisin. cbv beta iota.
    change (String.eqb "recommendations"
              (RecommendationType_value recommendations)) with true.
    cbv beta iota. rewrite Hfetch. reflexivity.
  - intros -> upgrades s4 Hfetch. split.
    + intros result Hjson.
      unfold get_recommendations, bind, guarded, lift_response.
      cbv zeta. fold key.
      rewrite Hget, Hcheck, Hisin. cbv beta iota.
      change (String.eqb "upgrades_downgrades"
                (RecommendationType_value recommendations)) with false.
      change (String.eqb "upgrades_downgrades"
                (RecommendationType_value upgrades_downgrades)) with true.
      cbv beta iota. rewrite Hfetch. cbv beta iota. rewrite Hjson. reflexivity.
    + intros e Hjson.
      unfold get_recommendations, bind, guarded, lift_response.
      cbv zeta. fold key.
      rewrite Hget, Hcheck, Hisin. cbv beta iota.
      change (String.eqb "upgrades_downgrades"
                (RecommendationType_value recommendations)) with false.
      change (String.eqb "upgrades_downgrades"
                (RecommendationType_value upgrades_downgrades)) with true.
      cbv beta iota. rewrite Hfetch. cbv beta iota. rewrite Hjson. reflexivity.
  - intros Hr Hu. apply String.eqb_neq in Hr, Hu.
    unfold get_recommendations, bind, guarded. cbv zeta. fold key.
    rewrite Hget, Hcheck, Hisin. cbv beta iota.
    change (RecommendationType_value recommendations)
      with "recommendations".
    change (RecommendationType_value upgrades_downgrades)
      with "upgrades_downgrades".
    rewrite Hr, Hu. reflexivity.
Qed.

End Properties.

(** * The theorems at work on the sample worlds *)

(** The window of [tight_world] is full after two calls, and a third call
    for a new ticker is turned away; the first call repeated is served from
    the cache all the same. *)
Lemma cache_hit_short_circuits_witness :
  let s := state_after tight_world [GetStockInfo "A"; GetStockInfo "B"] in
  fst (_rate_limit_check tight_world "C" s)
  = Ret (true, Some "Rate limited. Try after 55.0s.")
  /\ handle tight_world (GetStockInfo "A") s = (Ret (Some "info"), tick s).
Proof.
  intros s. split; [vm_compute; reflexivity|].
  apply (cache_hit_short_circuits tight_world (GetStockInfo "A") s 62 "info");
    vm_compute; reflexivity.
Defined.

(** One entry stored and read back at once; and an entry stored at 200
    seconds, read again at 300 seconds. *)
Lemma cache_set_get_expire_witness :
  let k := [AStr "get_stock_info"; AStr "AAPL"] in
  let s := initial_state string in
  let s2 := state_after slow_world [GetStockInfo "AAPL"] in
  fst ((_cache_set default_world k "{}" ;;; _cache_get default_world k) s)
  = Ret (Some "{}")
  /\ _cache s2 !! k = Some (260%Q, "info")
  /\ fst (_cache_get slow_world k s2) = Ret None
  /\ _cache (snd (_cache_get slow_world k s2)) !! k = None.
Proof.
  intros k s s2.
  destruct (cache_set_get_expire default_world k "{}" s)
    as (_ & _ & Hread & _).
  destruct (cache_set_get_expire slow_world k "{}" s)
    as (_ & _ & _ & Hexpire & _).
  split.
  - rewrite Hread; [reflexivity | vm_compute; reflexivity].
  - split; [vm_compute; reflexivity|].
    destruct (Hexpire s2 260%Q "info") as (s3 & Hget & _ & Hgone);
      [vm_compute; reflexivity
      | apply Qle_bool_iff; vm_compute; reflexivity |].
    rewrite Hget. split; [reflexivity | exact Hgone].
Defined.

(** A second call for the same ticker two tenths of a second after the
    first is throttled; a call for another ticker is let through. *)
Lemma per_ticker_throttle_witness :
  let s := state_after brisk_world [GetStockInfo "AAPL"] in
  fst (_rate_limit_check brisk_world "AAPL" s)
  = Ret (true, Some "Rate limited. Try after 1.8s.")
  /\ fst (_rate_limit_check brisk_world "MSFT" s) = Ret (false, None).
Proof.
  intros s.
  destruct (per_ticker_throttle brisk_world "AAPL" s) as [Hreject _];
    [vm_compute; reflexivity|].
  destruct (per_ticker_throttle brisk_world "MSFT" s) as [_ Haccept];
    [vm_compute; reflexivity|].
  split.
  - rewrite (Hreject (1 # 10)); [vm_compute; reflexivity | ..];
      vm_compute; reflexivity.
  - destruct Haccept as (s' & Hrun & _);
      [left; vm_compute; reflexivity|].
    rewrite Hrun. reflexivity.
Defined.

(** The throttled call of the previous example recorded nothing. *)
Lemma rejection_records_nothing_witness :
  let s := state_after brisk_world [GetStockInfo "AAPL"] in
  let s' := snd (_rate_limit_check brisk_world "AAPL" s) in
  _last_ticker_request s' = _last_ticker_request s
  /\ _global_request_timestamps s' = _global_request_timestamps s.
Proof.
  intros s s'.
  destruct (rejection_records_nothing brisk_world "AAPL" s s'
              (Some "Rate limited. Try after 1.8s."))
    as (Hlast & _ & Hkept & _); [vm_compute; reflexivity|].
  split; [exact Hlast|]. rewrite Hkept. vm_compute. reflexivity.
Defined.

(** C2 as stated fails: the window of [brisk_world] holds one of its thirty
    requests, yet the check neither accepts the call nor records its time,
    because the ticker was seen two tenths of a second before. *)
Lemma global_window_counterexample :
  let s := state_after brisk_world [GetStockInfo "AAPL"] in
  let now := clock brisk_world (ticks s) in
  let kept :=
    List.filter
      (fun t => Qle_bool (now - _GLOBAL_WINDOW_SECONDS (cfg brisk_world)) t)
      (_global_request_timestamps s) in
  (Z.of_nat (length kept) < _GLOBAL_MAX_REQUESTS (cfg brisk_world))%Z
  /\ fst (_rate_limit_check brisk_world "AAPL" s) <> Ret (false, None)
  /\ _global_request_timestamps (snd (_rate_limit_check brisk_world "AAPL" s))
     <> kept ++ [now].
Proof.
  vm_compute. repeat split; discriminate.
Defined.

(** The full window of [tight_world] rejects with the wait computed from
    its oldest entry; the throttled call of [brisk_world] is rejected by a
    window that has room. *)
Lemma global_window_check_witness :
  let s := state_after tight_world [GetStockInfo "A"; GetStockInfo "B"] in
  let s1 := state_after brisk_world [GetStockInfo "AAPL"] in
  (exists oldest rest,
     _global_request_timestamps (snd (_rate_limit_check tight_world "C" s))
     = oldest :: rest
     /\ fst (_rate_limit_check tight_world "C" s)
        = Ret (true, Some (rate_limited_message (60 - (6 - oldest)))))
  /\ _global_request_timestamps (snd (_rate_limit_check brisk_world "AAPL" s1))
     = [1 # 10].
Proof.
  intros s s1. split.
  - destruct (_rate_limit_check tight_world "C" s) as [r s'] eqn:Hrun.
    destruct (global_window_check tight_world "C" s s' r) as [Hfull _];
      [vm_compute; repeat constructor; discriminate
      | vm_compute; reflexivity | exact Hrun |].
    destruct Hfull as (oldest & rest & Hkept & _ & Hr & Hts);
      [vm_compute; discriminate|].
    exists oldest, rest. simpl. split; [congruence | exact Hr].
  - destruct (_rate_limit_check brisk_world "AAPL" s1) as [r s'] eqn:Hrun.
    destruct (global_window_check brisk_world "AAPL" s1 s' r) as [_ Hroom];
      [vm_compute; repeat constructor
      | vm_compute; reflexivity | exact Hrun |].
    destruct Hroom as [_ Hthrottled]; [vm_compute; reflexivity|].
    destruct Hthrottled as [_ Hts].
    + exists (1 # 10)%Q. split; vm_compute; reflexivity.
    + simpl. rewrite Hts. vm_compute. reflexivity.
Defined.

(** Against a provider that throttles twice, the executor makes three
    calls and returns the value of the third. *)
Lemma retry_executor_attempts_witness :
  (0 <= _MAX_RETRIES (cfg flaky_world))%Z
  /\ exists k s',
       _execute_with_retry flaky_world (fetch flaky_world (Actions "AAPL"))
         (initial_state string)
       = (Ret "actions", s')
       /\ calls s' = k /\ (1 <= k <= 3)%nat.
Proof.
  assert (Hmax : (0 <= _MAX_RETRIES (cfg flaky_world))%Z)
    by (vm_compute; discriminate).
  split; [exact Hmax|].
  destruct (retry_executor_attempts flaky_world (Actions "AAPL")
              (initial_state string) Hmax)
    as (k & res & s' & Hrun & Hcalls & _ & Hk1 & Hk2 & _).
  exists k, s'. split.
  - rewrite Hrun. f_equal.
    assert (Hres : fst (_execute_with_retry flaky_world
                          (fetch flaky_world (Actions "AAPL"))
                          (initial_state string)) = Ret "actions")
      by (vm_compute; reflexivity).
    rewrite Hrun in Hres. exact Hres.
  - split; [rewrite Hcalls; simpl; lia|].
    split; [exact Hk1|]. simpl in Hk2. lia.
Defined.

(** In the same run the two sleeps are 1.725 and 3.45 seconds, each within
    its bounds. *)
Lemma backoff_delays_witness :
  (0 < _BACKOFF_BASE_SECONDS (cfg flaky_world))%Q
  /\ trace (snd (_execute_with_retry flaky_world
                   (fetch flaky_world (Actions "AAPL"))
                   (initial_state string)))
     = [EvFetch (Actions "AAPL");
        EvSleep (backoff_delay flaky_world 0 (1 # 2));
        EvFetch (Actions "AAPL");
        EvSleep (backoff_delay flaky_world 1 (1 # 2));
        EvFetch (Actions "AAPL")]
  /\ (3 # 2 <= backoff_delay flaky_world 0 (1 # 2) <= (13 # 10) * (3 # 2))%Q
  /\ (backoff_delay flaky_world 0 (1 # 2)
      < backoff_delay flaky_world 1 (1 # 2))%Q.
Proof.
  assert (Hbase : (0 < _BACKOFF_BASE_SECONDS (cfg flaky_world))%Q)
    by (vm_compute; reflexivity).
  assert (Hrandom : forall n, (0 <= random flaky_world n <= 1)%Q)
    by (intros n; split; vm_compute; discriminate).
  split; [exact Hbase|].
  destruct (backoff_delays flaky_world (Actions "AAPL") (initial_state string)
              Hbase Hrandom)
    as (k & Htrace & Hsleeps & Hbounds & Hgrow & _).
  split; [vm_compute; reflexivity|].
  split.
  - destruct (Hbounds 0%nat 0%nat) as (_ & Hlow & Hup).
    split; [exact Hlow | exact Hup].
  - exact (Hgrow 0%nat 0%nat 0%nat).
Defined.

(** C7 as stated fails: on a fresh process the call with an unknown
    statement type does get the invalid-type sentence, but only after one
    upstream call, the ISIN look-up; and right after another call for the
    same ticker it gets the rate-limit sentence instead. *)
Lemma invalid_financial_type_counterexample :
  let run := get_financial_statement default_world "AAPL" "bogus_type"
               (initial_state string) in
  let throttled := get_financial_statement brisk_world "AAPL" "bogus_type"
                     (state_after brisk_world [GetStockInfo "AAPL"]) in
  fst run = Ret (invalid_financial_type_text default_world "bogus_type")
  /\ calls (snd run) = 1%nat
  /\ trace (snd run) = [EvFetch (Isin "AAPL")]
  /\ fst throttled = Ret "Rate limited. Try after 1.7s.".
Proof.
  vm_compute. repeat split; reflexivity.
Defined.

(** The run of the counterexample, through the theorem. *)
Lemma invalid_financial_type_witness :
  let s := initial_state string in
  fst (get_financial_statement default_world "AAPL" "bogus_type" s)
  = Ret "Error: invalid financial type bogus_type. Please use one of the following: income_stmt, quarterly_income_stmt, balance_sheet, quarterly_balance_sheet, cashflow, quarterly_cashflow."
  /\ (calls s
      < calls (snd (get_financial_statement default_world "AAPL"
                      "bogus_type" s)))%nat.
Proof.
  intros s.
  set (k := [AStr "get_financial_statement"; AStr "AAPL"; AStr "bogus_type"]).
  set (s1 := snd (_cache_get default_world k s)).
  set (s2 := snd (_rate_limit_check default_world "AAPL" s1)).
  set (s3 := snd (_execute_with_retry default_world
                    (fetch default_world (Isin "AAPL")) s2)).
  destruct (invalid_financial_type default_world "AAPL" "bogus_type"
              s s1 s2 s3 None "US0378331005")
    as (Hrun & Htext & Hcalls & _).
  - intros t. destruct t; discriminate.
  - vm_compute. reflexivity.
  - vm_compute. reflexivity.
  - vm_compute. reflexivity.
  - rewrite Hrun. split; [|exact Hcalls].
    simpl. f_equal.
Defined.

(** C6 fails on the code: with a recommendation type that is neither
    "recommendations" nor "upgrades_downgrades", and a ticker the provider
    knows, [get_recommendations] falls off its end and returns [None]. *)
Lemma get_recommendations_returns_none :
  fst (get_recommendations default_world "AAPL" "bogus" 12
         (initial_state string))
  = Ret None.
Proof. vm_compute. reflexivity. Qed.

(** After two calls the cache of [default_world] holds two payloads; a
    third call stores a third one and returns it, and the first call
    repeated is answered with the payload stored for it. *)
Lemma cache_holds_payloads_only_witness :
  let cs := [GetStockInfo "AAPL"; GetStockActions "MSFT"] in
  cache_holds_payloads default_world (state_after default_world cs)
  /\ fst (handle default_world (GetStockInfo "AAPL")
            (state_after default_world cs))
     = Ret (Some "info")
  /\ exists n, payload_at default_world (GetStockInfo "AAPL") n = Some "info".
Proof.
  intros cs.
  destruct (cache_holds_payloads_only default_world cs (GetStockInfo "AAPL"))
    as (Hinv & _ & Hhit).
  split; [exact Hinv|].
  destruct (Hhit 62%Q "info") as [Hres Hpay];
    [vm_compute; reflexivity | vm_compute; reflexivity |].
  split; [exact Hres | exact Hpay].
Defined.

(** * The further properties at work on the sample worlds *)

Lemma second_clock_monotonic (t0 : Z) (i j : nat) :
  (i <= j)%nat -> (second_clock t0 i <= second_clock t0 j)%Q.
Proof.
  intros Hij. unfold second_clock, Qle, inject_Z. cbn [Qnum Qden]. lia.
Qed.

(** A second call for the ticker of [brisk_world], for another tool, is
    turned away by the throttle without reaching the provider. *)
Lemma rate_limited_reply_witness :
  let s := state_after brisk_world [GetStockInfo "AAPL"] in
  fst (handle brisk_world (GetStockActions "AAPL") s)
  = Ret (Some "Rate limited. Try after 1.7s.")
  /\ calls (snd (handle brisk_world (GetStockActions "AAPL") s)) = calls s.
Proof.
  intros s.
  set (c := GetStockActions "AAPL").
  set (s1 := snd (_cache_get brisk_world (cache_key_of c) s)).
  set (s2 := snd (_rate_limit_check brisk_world (ticker_of c) s1)).
  destruct (rate_limited_reply brisk_world c s s1 s2
              (Some "Rate limited. Try after 1.7s."))
    as (retry_after & Hmsg & Hrun & Hcalls & _);
    [vm_compute; reflexivity | vm_compute; reflexivity |].
  rewrite Hrun. cbn [fst snd]. split; [|exact Hcalls].
  rewrite <- Hmsg. reflexivity.
Defined.

(** The provider is down: the call fails, and its time stays recorded in
    both limiters. *)
Lemma quota_is_spent_before_fetching_witness :
  let run := handle broken_world (GetStockInfo "AAPL") (initial_state string) in
  fst run
  = Ret (Some "Error: getting stock information for AAPL: connection reset")
  /\ _global_request_timestamps (snd run) = [1%Q]
  /\ _last_ticker_request (snd run) !! "AAPL" = Some 1%Q.
Proof.
  intros run.
  destruct (quota_is_spent_before_fetching broken_world (GetStockInfo "AAPL")
              (initial_state string)) as [Hlist Hmap];
    [vm_compute; reflexivity|].
  split; [vm_compute; reflexivity|]. subst run. split.
  - rewrite Hlist. vm_compute. reflexivity.
  - rewrite Hmap. vm_compute. reflexivity.
Defined.

Lemma unknown_ticker_reply_witness :
  fst (handle unlisted_world (GetStockInfo "ZZZZ") (initial_state string))
  = Ret (Some "Company ticker ZZZZ not found.").
Proof.
  set (s := initial_state string).
  set (c := GetStockInfo "ZZZZ").
  set (s1 := snd (_cache_get unlisted_world (cache_key_of c) s)).
  set (s2 := snd (_rate_limit_check unlisted_world (ticker_of c) s1)).
  set (s3 := snd (_execute_with_retry unlisted_world
                    (fetch unlisted_world (Isin (ticker_of c))) s2)).
  destruct (unknown_ticker_reply unlisted_world c s s1 s2 s3 None)
    as (Hrun & _);
    [intros t; discriminate | vm_compute; reflexivity
    | vm_compute; reflexivity | vm_compute; reflexivity |].
  rewrite Hrun. reflexivity.
Defined.

Lemma fetch_failure_reply_witness :
  fst (handle broken_world (GetStockActions "AAPL") (initial_state string))
  = Ret (Some "Error: getting stock actions for AAPL: connection reset").
Proof.
  set (s := initial_state string).
  set (c := GetStockActions "AAPL").
  set (s1 := snd (_cache_get broken_world (cache_key_of c) s)).
  set (s2 := snd (_rate_limit_check broken_world (ticker_of c) s1)).
  set (s3 := snd (_execute_with_retry broken_world
                    (fetch broken_world (Actions "AAPL")) s2)).
  destruct (fetch_failure_reply broken_world c s s1 s2 s3 None
              (Exception "connection reset"))
    as (Hrun & _);
    [vm_compute; reflexivity | vm_compute; reflexivity
    | vm_compute; reflexivity |].
  rewrite Hrun. reflexivity.
Defined.

Lemma no_attempt_without_budget_witness :
  (_MAX_RETRIES (cfg impatient_world) < 0)%Z
  /\ _execute_with_retry impatient_world
       (fetch impatient_world (Info "AAPL")) (initial_state string)
     = (Raise (Exception "exceptions must derive from BaseException"),
        initial_state string).
Proof.
  assert (Hneg : (_MAX_RETRIES (cfg impatient_world) < 0)%Z)
    by (vm_compute; reflexivity).
  split; [exact Hneg|].
  apply (no_attempt_without_budget impatient_world _ _ Hneg).
Defined.

Lemma option_chain_validation_witness :
  let s := initial_state string in
  fst (get_option_chain default_world "AAPL" "2099-01-01" "calls" s)
  = Ret (no_options_text "2099-01-01")
  /\ fst (get_option_chain default_world "AAPL" "2030-01-18" "both" s)
     = Ret "Error: Invalid option type. Please use 'calls' or 'puts'.".
Proof.
  intros s. split.
  - set (k := [AStr "get_option_chain"; AStr "AAPL"; AStr "2099-01-01";
               AStr "calls"]).
    set (s1 := snd (_cache_get default_world k s)).
    set (s2 := snd (_rate_limit_check default_world "AAPL" s1)).
    set (s3 := snd (_execute_with_retry default_world
                      (fetch default_world (Isin "AAPL")) s2)).
    set (s4 := snd (_execute_with_retry default_world
                      (fetch default_world (Options "AAPL")) s3)).
    destruct (option_chain_validation default_world "AAPL" "2099-01-01"
                "calls" s s1 s2 s3 s4 None "US0378331005" ["2030-01-18"])
      as (Hdate & _);
      [vm_compute; reflexivity | vm_compute; reflexivity
      | vm_compute; reflexivity | vm_compute; reflexivity |].
    rewrite Hdate; [reflexivity|].
    intros [Hin | []]. discriminate.
  - set (k := [AStr "get_option_chain"; AStr "AAPL"; AStr "2030-01-18";
               AStr "both"]).
    set (s1 := snd (_cache_get default_world k s)).
    set (s2 := snd (_rate_limit_check default_world "AAPL" s1)).
    set (s3 := snd (_execute_with_retry default_world
                      (fetch default_world (Isin "AAPL")) s2)).
    set (s4 := snd (_execute_with_retry default_world
                      (fetch default_world (Options "AAPL")) s3)).
    destruct (option_chain_validation default_world "AAPL" "2030-01-18"
                "both" s s1 s2 s3 s4 None "US0378331005" ["2030-01-18"])
      as (_ & Htype & _);
      [vm_compute; reflexivity | vm_compute; reflexivity
      | vm_compute; reflexivity | vm_compute; reflexivity |].
    rewrite Htype; [reflexivity | left; reflexivity
                   | discriminate | discriminate].
Defined.

Lemma option_chain_side_witness :
  fst (get_option_chain default_world "AAPL" "2030-01-18" "puts"
         (initial_state string))
  = Ret "puts".
Proof.
  set (s := initial_state string).
  set (k := [AStr "get_option_chain"; AStr "AAPL"; AStr "2030-01-18";
             AStr "puts"]).
  set (s1 := snd (_cache_get default_world k s)).
  set (s2 := snd (_rate_limit_check default_world "AAPL" s1)).
  set (s3 := snd (_execute_with_retry default_world
                    (fetch default_world (Isin "AAPL")) s2)).
  set (s4 := snd (_execute_with_retry default_world
                    (fetch default_world (Options "AAPL")) s3)).
  set (s5 := snd (_execute_with_retry default_world
                    (fetch default_world (OptionChain "AAPL" "2030-01-18"))
                    s4)).
  destruct (option_chain_side default_world "AAPL" "2030-01-18" "puts"
              s s1 s2 s3 s4 s5 None "US0378331005" ["2030-01-18"]
              "calls" "puts")
    as (_ & Hputs);
    [vm_compute; reflexivity | vm_compute; reflexivity
    | vm_compute; reflexivity | vm_compute; reflexivity
    | left; reflexivity | vm_compute; reflexivity |].
  rewrite Hputs; reflexivity.
Defined.

Lemma holder_info_by_type_witness :
  let s := initial_state string in
  fst (get_holder_info default_world "AAPL" "everyone" s)
  = Ret (invalid_holder_type_text default_world "everyone")
  /\ fst (get_holder_info default_world "AAPL" "major_holders" s)
     = Ret "[]".
Proof.
  intros s. split.
  - set (k := [AStr "get_holder_info"; AStr "AAPL"; AStr "everyone"]).
    set (s1 := snd (_cache_get default_world k s)).
    set (s2 := snd (_rate_limit_check default_world "AAPL" s1)).
    set (s3 := snd (_execute_with_retry default_world
                      (fetch default_world (Isin "AAPL")) s2)).
    destruct (holder_info_by_type default_world "AAPL" "everyone"
                s s1 s2 s3 None "US0378331005")
      as (Hinvalid & _);
      [vm_compute; reflexivity | vm_compute; reflexivity
      | vm_compute; reflexivity |].
    rewrite Hinvalid; [reflexivity|].
    intros t. destruct t; discriminate.
  - set (k := [AStr "get_holder_info"; AStr "AAPL"; AStr "major_holders"]).
    set (s1 := snd (_cache_get default_world k s)).
    set (s2 := snd (_rate_limit_check default_world "AAPL" s1)).
    set (s3 := snd (_execute_with_retry default_world
                      (fetch default_world (Isin "AAPL")) s2)).
    set (s4 := snd (_execute_with_retry default_world
                      (fetch default_world (Holders "AAPL" major_holders))
                      s3)).
    destruct (holder_info_by_type default_world "AAPL" "major_holders"
                s s1 s2 s3 None "US0378331005")
      as (_ & Hvalid);
      [vm_compute; reflexivity | vm_compute; reflexivity
      | vm_compute; reflexivity |].
    rewrite (Hvalid major_holders "[]" s4);
      [reflexivity | reflexivity | vm_compute; reflexivity].
Defined.

Lemma news_stories_only_witness :
  let s := initial_state string in
  fst (get_yahoo_finance_news newsy_world "AAPL" s)
  = Ret (news_text {| contentType := "STORY"; title := "T"; summary := "S";
                      description := "D"; url := "U" |})
  /\ fst (get_yahoo_finance_news default_world "AAPL" s)
     = Ret "No news found for company that searched with AAPL ticker.".
Proof.
  intros s.
  set (k := [AStr "get_yahoo_finance_news"; AStr "AAPL"]).
  split.
  - set (s1 := snd (_cache_get newsy_world k s)).
    set (s2 := snd (_rate_limit_check newsy_world "AAPL" s1)).
    set (s3 := snd (_execute_with_retry newsy_world
                      (fetch newsy_world (Isin "AAPL")) s2)).
    set (s4 := snd (_execute_with_retry newsy_world
                      (fetch newsy_world (News "AAPL")) s3)).
    destruct (news_stories_only newsy_world "AAPL" s s1 s2 s3 s4 None
                "US0378331005"
                [ {| contentType := "STORY"; title := "T"; summary := "S";
                     description := "D"; url := "U" |};
                  {| contentType := "VIDEO"; title := "V"; summary := "";
                     description := ""; url := "" |} ])
      as (_ & Hsome & _);
      [vm_compute; reflexivity | vm_compute; reflexivity
      | vm_compute; reflexivity | vm_compute; reflexivity |].
    rewrite Hsome; [reflexivity | vm_compute; discriminate].
  - set (s1 := snd (_cache_get default_world k s)).
    set (s2 := snd (_rate_limit_check default_world "AAPL" s1)).
    set (s3 := snd (_execute_with_retry default_world
                      (fetch default_world (Isin "AAPL")) s2)).
    set (s4 := snd (_execute_with_retry default_world
                      (fetch default_world (News "AAPL")) s3)).
    destruct (news_stories_only default_world "AAPL" s s1 s2 s3 s4 None
                "US0378331005" [])
      as (Hnone & _);
      [vm_compute; reflexivity | vm_compute; reflexivity
      | vm_compute; reflexivity | vm_compute; reflexivity |].
    rewrite Hnone; reflexivity.
Defined.

(** Three calls against a window that admits two. *)
Lemma window_never_overfull_witness :
  (length (_global_request_timestamps
             (state_after tight_world
                [GetStockInfo "A"; GetStockInfo "B"; GetStockInfo "C"]))
   <= 2)%nat.
Proof.
  pose proof (window_never_overfull tight_world
                [GetStockInfo "A"; GetStockInfo "B"; GetStockInfo "C"])
    as Hbound.
  assert (Hmax : (0 <= _GLOBAL_MAX_REQUESTS (cfg tight_world))%Z)
    by (vm_compute; discriminate).
  specialize (Hbound Hmax).
  change (_GLOBAL_MAX_REQUESTS (cfg tight_world)) with 2%Z in Hbound.
  lia.
Defined.

Lemma reachable_timestamps_in_order_witness :
  Sorted Qle (_global_request_timestamps
                (state_after default_world
                   [GetStockInfo "AAPL"; GetStockActions "MSFT"])).
Proof.
  destruct (reachable_timestamps_in_order default_world
              [GetStockInfo "AAPL"; GetStockActions "MSFT"])
    as [[Hsorted _] _].
  - intros i j Hij. apply (second_clock_monotonic 0 i j Hij).
  - exact Hsorted.
Defined.

Lemma timestamps_within_window_witness :
  let s := state_after default_world [GetStockInfo "AAPL"] in
  Forall (fun t => (3 - 60 <= t)%Q /\ (t <= 3)%Q)
         (_global_request_timestamps
            (snd (_rate_limit_check default_world "MSFT" s))).
Proof.
  intros s.
  apply (timestamps_within_window default_world "MSFT" s).
  - destruct (reachable_limiter_facts default_world [GetStockInfo "AAPL"])
      as (Hsorted & Hlist & _).
    + intros i j Hij. apply (second_clock_monotonic 0 i j Hij).
    + split; [exact Hsorted | exact Hlist].
  - vm_compute. discriminate.
Defined.


Lemma nonpositive_budget_faults_witness :
  (_GLOBAL_MAX_REQUESTS (cfg starved_world) <= 0)%Z
  /\ fst (handle starved_world (GetStockInfo "AAPL")
            (state_after starved_world [GetStockInfo "MSFT"]))
     = Raise (Exception "list index out of range").
Proof.
  assert (Hmax : (_GLOBAL_MAX_REQUESTS (cfg starved_world) <= 0)%Z)
    by (vm_compute; discriminate).
  split; [exact Hmax|].
  apply (nonpositive_budget_faults starved_world
           [GetStockInfo "MSFT"] (GetStockInfo "AAPL") Hmax).
Defined.

(** The months are part of the identity: the call for six months leaves the
    entry of the call for twelve months alone. *)
Lemma cache_entries_are_isolated_witness :
  let s := state_after default_world
             [GetRecommendations "AAPL" "recommendations" 12] in
  let k := cache_key_of (GetRecommendations "AAPL" "recommendations" 12) in
  _cache (snd (handle default_world
                 (GetRecommendations "AAPL" "recommendations" 6) s)) !! k
  = _cache s !! k.
Proof.
  intros s k.
  destruct (cache_entries_are_isolated default_world
              (GetRecommendations "AAPL" "recommendations" 6) s)
    as [_ Hother].
  apply (Hother k). discriminate.
Defined.


(** With a time-to-live of zero the second call goes to the provider
    again. *)
Lemma cache_entries_expire_on_time_witness :
  let s := state_after forgetful_world [GetStockInfo "AAPL"] in
  fst (_cache_get forgetful_world (cache_key_of (GetStockInfo "AAPL")) s)
  = Ret None.
Proof.
  intros s.
  destruct (cache_entries_expire_on_time forgetful_world
              [GetStockInfo "AAPL"]) as (_ & _ & Hnever).
  apply Hnever.
  - intros i j Hij. apply (second_clock_monotonic 0 i j Hij).
  - vm_compute. discriminate.
Defined.

Lemma financial_statement_by_type_witness :
  fst (get_financial_statement default_world "AAPL" "cashflow"
         (initial_state string))
  = Ret "statement".
Proof.
  set (s := initial_state string).
  set (k := [AStr "get_financial_statement"; AStr "AAPL"; AStr "cashflow"]).
  set (s1 := snd (_cache_get default_world k s)).
  set (s2 := snd (_rate_limit_check default_world "AAPL" s1)).
  set (s3 := snd (_execute_with_retry default_world
                    (fetch default_world (Isin "AAPL")) s2)).
  set (s4 := snd (_execute_with_retry default_world
                    (fetch default_world (Statement "AAPL" cashflow)) s3)).
  destruct (financial_statement_by_type default_world "AAPL" cashflow
              s s1 s2 s3 s4 None "US0378331005")
    as (Hok & _);
    [vm_compute; reflexivity | vm_compute; reflexivity
    | vm_compute; reflexivity |].
  change (FinancialType_value cashflow) with "cashflow" in Hok.
  rewrite (Hok "statement"); [reflexivity | vm_compute; reflexivity].
Defined.

Lemma recommendations_by_type_witness :
  let s := initial_state string in
  fst (get_recommendations default_world "AAPL" "upgrades_downgrades" 12 s)
  = Ret (Some "upgrades")
  /\ fst (get_recommendations default_world "AAPL" "bogus" 12 s) = Ret None.
Proof.
  intros s. split.
  - set (k := [AStr "get_recommendations"; AStr "AAPL";
               AStr "upgrades_downgrades"; AInt 12]).
    set (s1 := snd (_cache_get default_world k s)).
    set (s2 := snd (_rate_limit_check default_world "AAPL" s1)).
    set (s3 := snd (_execute_with_retry default_world
                      (fetch default_world (Isin "AAPL")) s2)).
    set (s4 := snd (_execute_with_retry default_world
                      (fetch default_world (UpgradesDowngrades "AAPL"))
                      s3)).
    destruct (recommendations_by_type default_world "AAPL"
                "upgrades_downgrades" 12 s s1 s2 s3 None "US0378331005")
      as (_ & Hupgrades & _);
      [vm_compute; reflexivity | vm_compute; reflexivity
      | vm_compute; reflexivity |].
    destruct (Hupgrades eq_refl "upgrades" s4) as [Hok _];
      [vm_compute; reflexivity|].
    rewrite (Hok "upgrades"); reflexivity.
  - set (k := [AStr "get_recommendations"; AStr "AAPL"; AStr "bogus";
               AInt 12]).
    set (s1 := snd (_cache_get default_world k s)).
    set (s2 := snd (_rate_limit_check default_world "AAPL" s1)).
    set (s3 := snd (_execute_with_retry default_world
                      (fetch default_world (Isin "AAPL")) s2)).
    destruct (recommendations_by_type default_world "AAPL" "bogus" 12
                s s1 s2 s3 None "US0378331005")
      as (_ & _ & Hother);
      [vm_compute; reflexivity | vm_compute; reflexivity
      | vm_compute; reflexivity |].
    rewrite Hother; [reflexivity | discriminate | discriminate].
Defined.
